(** * Incident reporting backend: the incidents service

    A shallow embedding of [IncidentsService] (create, findAll, update,
    remove, exportToCSV), of the [Incident] entity and of the repository the
    service is injected with, followed by the properties of the update
    engine (status, closedOn, totalTime), of the error paths and of the CSV
    exporter. *)

From Stdlib Require Import ZArith String Ascii List Bool Lia.
From Stdlib Require Import Permutation Sorted Mergesort DecimalString.
From Stdlib Require Import DecimalZ DecimalPos.
Import ListNotations.

Open Scope string_scope.
Open Scope Z_scope.

(* ================================================================== *)
(** ** JavaScript values the service computes with *)

Module JS.

(** The numbers of the service are time values in milliseconds and the
    hour and day counts derived from them: doubles that hold a whole
    number, or NaN (the time value of an invalid Date).  [Int z] is the
    double whose value is [z]. *)
Inductive number : Type :=
| NaN
| Int (z : Z).

(** The whole numbers a double holds exactly whatever they are: those of
    magnitude below 2^53. *)
Definition safe (z : Z) : Prop := Z.abs z < 2 ^ 53.

(** [num / den] rounded to the nearest whole number, a tie going to the
    even one; [0 <= num] and [0 < den]. *)
Definition round_half_even (num den : Z) : Z :=
  let m := num / den in
  let r := num mod den in
  if (den <? 2 * r) || ((2 * r =? den) && Z.odd m) then m + 1 else m.

(** The double nearest to the whole number [z]: from 2^53 on only 53
    leading bits are kept. *)
Definition to_double (z : Z) : Z :=
  let a := Z.abs z in
  let e := Z.log2 a - 52 in
  if e <=? 0 then z else Z.sgn z * (round_half_even a (2 ^ e) * 2 ^ e).

(** [a - b]: the double nearest to the difference. *)
Definition sub (a b : number) : number :=
  match a, b with
  | Int x, Int y => Int (to_double (x - y))
  | _, _ => NaN
  end.

(** The exponent [e] of the double quotient [a / d], which is a 53 bit
    whole number times [2^e]; [0 < a] and [0 < d]. *)
Definition quotient_exponent (a d : Z) : Z :=
  let k := Z.log2 a - Z.log2 d in
  let reaches := if 0 <=? k then d * 2 ^ k <=? a else d <=? a * 2 ^ (- k) in
  (if reaches then k else k - 1) - 52.

(** [Math.floor(x / d)] for doubles holding the whole numbers [x] and
    [0 < d]: the quotient is rounded to a double first, then floored. *)
Definition floor_quotient (x d : Z) : Z :=
  let a := Z.abs x in
  if a =? 0 then 0 else
  let e := quotient_exponent a d in
  if 0 <=? e then Z.sgn x * (round_half_even a (d * 2 ^ e) * 2 ^ e)
  else
    let m := round_half_even (a * 2 ^ (- e)) d in
    if 0 <? x then m / 2 ^ (- e) else - ((m + 2 ^ (- e) - 1) / 2 ^ (- e)).

(** [Math.floor(a / d)] for a positive integer constant [d]. *)
Definition floor_div (a : number) (d : Z) : number :=
  match a with
  | Int x => Int (floor_quotient x d)
  | NaN => NaN
  end.

(** [a > b]; every comparison with NaN is false. *)
Definition gt (a b : number) : bool :=
  match a, b with
  | Int x, Int y => x >? y
  | _, _ => false
  end.

(** Decimal rendering of an integer, as a template literal prints it (a
    number prints all its digits up to 10^21). *)
Definition Z_toString (z : Z) : string :=
  NilZero.string_of_int (Z.to_int z).

(** [`${n}`] *)
Definition toString (n : number) : string :=
  match n with
  | NaN => "NaN"
  | Int z => Z_toString z
  end.

(** A string is truthy unless it is empty. *)
Definition truthy (s : string) : bool :=
  negb (s =? "")%string.

(** The line feed and the double quote, as one-character strings. *)
Definition LF : string := String (ascii_of_nat 10) EmptyString.

Definition DQUOTE : string := String (ascii_of_nat 34) EmptyString.

(** [Array.prototype.join] on an array of strings. *)
Fixpoint join (sep : string) (xs : list string) : string :=
  match xs with
  | [] => ""
  | [x] => x
  | x :: rest => x ++ sep ++ join sep rest
  end.

(** A Date object: its time value. *)
Record Date : Type := mkDate { getTime : number }.

(** What the host provides: parsing of a date string to a time value (NaN
    when the string is no date), and the locale rendering of a valid time
    value.  The empty string is no date. *)
Class Runtime : Type := {
  Date_parse : string -> number;
  localeString : Z -> string;
  Date_parse_empty : Date_parse "" = NaN
}.

Section WithRuntime.
Context {rt : Runtime}.

(** [new Date(s)] for a string [s]. *)
Definition Date_of_string (s : string) : Date :=
  mkDate (Date_parse s).

(** [new Date(d)] for a Date [d]: a copy. *)
Definition Date_of_Date (d : Date) : Date :=
  mkDate (getTime d).

(** [d.toLocaleString()] *)
Definition toLocaleString (d : Date) : string :=
  match getTime d with
  | NaN => "Invalid Date"
  | Int t => localeString t
  end.

End WithRuntime.

End JS.

(* ================================================================== *)
(** ** The entity and the request bodies *)

(** [entities/incident.entity.ts].  The nullable columns are options; a
    datetime column holds a Date. *)
Record Incident : Type := mkIncident {
  id : Z;
  reportedBy : string;
  assignedTo : string;
  dateTime : JS.Date;
  description : string;
  attachment : option string;
  status : string;
  closedOn : option JS.Date;
  totalTime : option string;
  createdAt : JS.Date
}.

(** Assignments to a field of a loaded entity. *)
Definition set_status (inc : Incident) (s : string) : Incident :=
  mkIncident (id inc) (reportedBy inc) (assignedTo inc) (dateTime inc)
    (description inc) (attachment inc) s (closedOn inc) (totalTime inc)
    (createdAt inc).

Definition set_totalTime (inc : Incident) (t : string) : Incident :=
  mkIncident (id inc) (reportedBy inc) (assignedTo inc) (dateTime inc)
    (description inc) (attachment inc) (status inc) (closedOn inc) (Some t)
    (createdAt inc).

Definition set_closedOn (inc : Incident) (d : JS.Date) : Incident :=
  mkIncident (id inc) (reportedBy inc) (assignedTo inc) (dateTime inc)
    (description inc) (attachment inc) (status inc) (Some d) (totalTime inc)
    (createdAt inc).

Module CreateIncidentDto.
(** Modelled from the spec: [dto/create-incident.dto.ts] is not part of the
    sources; the body of a creation request carries reportedBy, assignedTo,
    dateTime (an ISO date-time string), description and an optional
    attachment reference, which the controller fills in from the upload.
    Nothing in the sources keeps a body from carrying a status, a closedOn
    or a totalTime as well, and [create] spreads the whole body: they are
    the three optional fields at the end, [None] when the body has none. *)
Record t : Type := mk {
  reportedBy : string;
  assignedTo : string;
  dateTime : string;
  description : string;
  attachment : option string;
  status : option string;
  closedOn : option string;
  totalTime : option string
}.

End CreateIncidentDto.

Module UpdateIncidentDto.
(** Modelled from the spec: [dto/update-incident.dto.ts] is not part of the
    sources; the body of an update request carries an optional status and
    an optional closedOn, both strings.  [None] stands for a field that is
    absent or null. *)
Record t : Type := mk {
  status : option string;
  closedOn : option string
}.
End UpdateIncidentDto.

(** The condition of [if (x)] for an optional string field. *)
Definition supplied (x : option string) : option string :=
  match x with
  | Some s => if JS.truthy s then Some s else None
  | None => None
  end.

(* ================================================================== *)
(** ** Exceptions and the repository *)

Inductive Exception : Type :=
| NotFoundException (message : string).

Inductive Outcome (A : Type) : Type :=
| Returned (a : A)
| Thrown (e : Exception).
Arguments Returned {A} a.
Arguments Thrown {A} e.

(** The table behind [Repository<Incident>]: its rows in insertion order,
    the next value of the generated primary key, and the clock that stamps
    [createdAt].  The database itself is taken to be available: the only
    exceptions are the ones the service throws. *)
Record Repository : Type := mkRepository {
  rows : list Incident;
  autoIncrement : Z;
  clock : Z
}.

(** A service method runs against the repository: it returns or throws,
    and leaves the repository in some state either way. *)
Definition M (A : Type) : Type := Repository -> Outcome A * Repository.

Definition ret {A} (a : A) : M A := fun r => (Returned a, r).

Definition throw {A} (e : Exception) : M A := fun r => (Thrown e, r).

Definition bind {A B} (m : M A) (k : A -> M B) : M B :=
  fun r =>
    match m r with
    | (Returned a, r') => k a r'
    | (Thrown e, r') => (Thrown e, r')
    end.

Notation "x <- m ;; k" := (bind m (fun x => k))
  (at level 61, m at next level, right associativity).

(** Rows ordered by id, largest first. *)
Module IdDesc <: Orders.TotalLeBool.
Definition t := Incident.
Definition leb (a b : Incident) : bool := id b <=? id a.
Lemma leb_total : forall a b, leb a b = true \/ leb b a = true.
Proof.
  intros a b; unfold leb.
  destruct (Z.leb_spec (id b) (id a)); [now left|].
  right; apply Z.leb_le; lia.
Qed.
End IdDesc.

Module IdDescSort := Sort IdDesc.

Module Repo.

(** What [repository.create({...})] builds: an entity that has no id yet
    and has the columns the object literal names; status, closedOn and
    totalTime are set only if the literal carries them. *)
Record Draft : Type := mkDraft {
  d_reportedBy : string;
  d_assignedTo : string;
  d_dateTime : JS.Date;
  d_description : string;
  d_attachment : option string;
  d_status : option string;
  d_closedOn : option JS.Date;
  d_totalTime : option string
}.

(** [save] of a draft: an INSERT.  The key is generated and createdAt is
    stamped; a status that is not set takes the column default, a closedOn
    or totalTime that is not set is null. *)
Definition insert (d : Draft) : M Incident :=
  fun r =>
    let inc := mkIncident (autoIncrement r) (d_reportedBy d) (d_assignedTo d)
                 (d_dateTime d) (d_description d) (d_attachment d)
                 (match d_status d with Some s => s | None => "Open" end)
                 (d_closedOn d) (d_totalTime d)
                 (JS.mkDate (JS.Int (clock r))) in
    (Returned inc,
     mkRepository (rows r ++ [inc]) (autoIncrement r + 1) (clock r)).

(** [findOne({ where: { id } })] *)
Definition findOne (i : Z) : M (option Incident) :=
  fun r => (Returned (find (fun inc => id inc =? i) (rows r)), r).

(** [save] of a loaded entity: the row with its id is overwritten. *)
Definition save (inc : Incident) : M Incident :=
  fun r =>
    (Returned inc,
     mkRepository
       (map (fun row => if id row =? id inc then inc else row) (rows r))
       (autoIncrement r) (clock r)).

(** [find({ order: { id: 'DESC' } })] *)
Definition find_desc : M (list Incident) :=
  fun r => (Returned (IdDescSort.sort (rows r)), r).

Record DeleteResult : Type := mkDeleteResult { affected : Z }.

(** [delete(id)]: the rows with that id go, and their number is reported. *)
Definition delete (i : Z) : M DeleteResult :=
  fun r =>
    let kept := filter (fun inc => negb (id inc =? i)) (rows r) in
    (Returned
       (mkDeleteResult (Z.of_nat (length (rows r)) - Z.of_nat (length kept))),
     mkRepository kept (autoIncrement r) (clock r)).

End Repo.

(* ================================================================== *)
(** ** The service *)

Module IncidentsService.

Section WithRuntime.
Context {rt : JS.Runtime}.

(** [create(createIncidentDto)]: the spread copies every property of the
    body, then dateTime is replaced by the Date read from it.  A closedOn
    in the body is a date text; the entity holds the Date it denotes. *)
Definition create (createIncidentDto : CreateIncidentDto.t) : M Incident :=
  let incident :=
    Repo.mkDraft
      (CreateIncidentDto.reportedBy createIncidentDto)
      (CreateIncidentDto.assignedTo createIncidentDto)
      (JS.Date_of_string (CreateIncidentDto.dateTime createIncidentDto))
      (CreateIncidentDto.description createIncidentDto)
      (CreateIncidentDto.attachment createIncidentDto)
      (CreateIncidentDto.status createIncidentDto)
      (option_map JS.Date_of_string
         (CreateIncidentDto.closedOn createIncidentDto))
      (CreateIncidentDto.totalTime createIncidentDto) in
  Repo.insert incident.

(** [findAll()] *)
Definition findAll : M (list Incident) :=
  Repo.find_desc.

(** The elapsed-time summary of [update]: from [start] to [end_]. *)
Definition elapsed (start end_ : JS.Date) : string :=
  let diffMs := JS.sub (JS.getTime end_) (JS.getTime start) in
  let diffHours := JS.floor_div diffMs (1000 * 60 * 60) in
  let diffDays := JS.floor_div diffHours 24 in
  if JS.gt diffDays (JS.Int 0)
  then JS.toString diffDays ++ " days"
  else JS.toString diffHours ++ " hours".

(** The two conditional assignments of [update] on the loaded entity. *)
Definition apply_update (incident : Incident)
    (updateIncidentDto : UpdateIncidentDto.t) : Incident :=
  let incident :=
    match supplied (UpdateIncidentDto.status updateIncidentDto) with
    | Some s => set_status incident s
    | None => incident
    end in
  match supplied (UpdateIncidentDto.closedOn updateIncidentDto) with
  | Some c =>
      let start := JS.Date_of_Date (dateTime incident) in
      let end_ := JS.Date_of_string c in
      set_closedOn (set_totalTime incident (elapsed start end_)) end_
  | None => incident
  end.

Definition not_found_message (i : Z) : string :=
  "Incident with ID " ++ JS.Z_toString i ++ " not found".

(** [update(id, updateIncidentDto)] *)
Definition update (i : Z) (updateIncidentDto : UpdateIncidentDto.t)
    : M Incident :=
  found <- Repo.findOne i ;;
  match found with
  | None => throw (NotFoundException (not_found_message i))
  | Some incident => Repo.save (apply_update incident updateIncidentDto)
  end.

(** [remove(id)] *)
Definition remove (i : Z) : M Repo.DeleteResult :=
  result <- Repo.delete i ;;
  if Repo.affected result =? 0
  then throw (NotFoundException (not_found_message i))
  else ret result.

Definition headers : list string :=
  ["ID"; "Reported By"; "Assigned To"; "Date & Time"; "Description";
   "Status"; "Closed On"; "Total Time"].

(** The cells of one incident, each already a string as the template
    literal of the exporter makes it. *)
Definition cells (inc : Incident) : list string :=
  [ JS.Z_toString (id inc);
    reportedBy inc;
    assignedTo inc;
    JS.toLocaleString (JS.Date_of_Date (dateTime inc));
    description inc;
    status inc;
    match closedOn inc with
    | Some d => JS.toLocaleString (JS.Date_of_Date d)
    | None => ""
    end;
    match supplied (totalTime inc) with
    | Some t => t
    | None => ""
    end ].

(** [`"${cell}"`] *)
Definition quoted (cell : string) : string :=
  JS.DQUOTE ++ cell ++ JS.DQUOTE.

(** [exportToCSV()] *)
Definition exportToCSV : M string :=
  incidents <- findAll ;;
  let rows := map cells incidents in
  let csvContent :=
    JS.join JS.LF
      (JS.join "," headers
       :: map (fun row => JS.join "," (map quoted row)) rows) in
  ret csvContent.

End WithRuntime.

End IncidentsService.

(* ================================================================== *)
(** ** A host: ISO date-times read in the UTC zone *)

Module UtcHost.

Definition digit (c : ascii) : option Z :=
  let n := Z.of_nat (nat_of_ascii c) in
  if (48 <=? n) && (n <=? 57) then Some (n - 48) else None.

(** Reads exactly [n] decimal digits off the front of [s]. *)
Fixpoint digits (n : nat) (acc : Z) (s : string) : option (Z * string) :=
  match n with
  | O => Some (acc, s)
  | S n' =>
      match s with
      | String c rest =>
          match digit c with
          | Some d => digits n' (10 * acc + d) rest
          | None => None
          end
      | EmptyString => None
      end
  end.

(** Drops the character [c] off the front of [s]. *)
Definition expect (c : ascii) (s : string) : option string :=
  match s with
  | String c' rest => if Ascii.eqb c c' then Some rest else None
  | EmptyString => None
  end.

(** Days from 1970-01-01 to the civil date y-m-d. *)
Definition days_from_civil (y m d : Z) : Z :=
  let y' := if m <=? 2 then y - 1 else y in
  let era := y' / 400 in
  let yoe := y' - era * 400 in
  let mp := if m <=? 2 then m + 9 else m - 3 in
  let doy := (153 * mp + 2) / 5 + d - 1 in
  let doe := yoe * 365 + yoe / 4 - yoe / 100 + doy in
  era * 146097 + doe - 719468.

(** The year: four digits, or a sign and six digits. *)
Definition year (s : string) : option (Z * string) :=
  match s with
  | String c rest =>
      if Ascii.eqb c "+" then digits 6 0 rest
      else if Ascii.eqb c "-" then
        match digits 6 0 rest with
        | Some (y, rest') => if y =? 0 then None else Some (- y, rest')
        | None => None
        end
      else digits 4 0 s
  | EmptyString => None
  end.

Definition millis_tail (s : string) : option (Z * string) :=
  match expect "." s with
  | Some s1 => digits 3 0 s1
  | None => Some (0, s)
  end.

(** The optional seconds of a time of day, which alone may be followed by
    milliseconds: the two together, in milliseconds. *)
Definition seconds_tail (s : string) : option (Z * string) :=
  match expect ":" s with
  | Some s1 =>
      match digits 2 0 s1 with
      | Some (ss, s2) =>
          match millis_tail s2 with
          | Some (ms, s3) =>
              if ss <=? 59 then Some (ss * 1000 + ms, s3) else None
          | None => None
          end
      | None => None
      end
  | None => Some (0, s)
  end.

Definition zone_tail (s : string) : bool :=
  match expect "Z" s with
  | Some s1 => (s1 =? "")%string
  | None => (s =? "")%string
  end.

(** The time of day after the T, in milliseconds: HH:mm, then optionally
    :ss and .sss, then optionally Z. *)
Definition time_of_day (s : string) : option Z :=
  match digits 2 0 s with
  | Some (hh, s) =>
  match expect ":" s with
  | Some s =>
  match digits 2 0 s with
  | Some (mi, s) =>
  match seconds_tail s with
  | Some (sms, s) =>
      if (hh <=? 23) && (mi <=? 59) && zone_tail s
      then Some ((hh * 60 + mi) * 60000 + sms)
      else None
  | None => None end
  | None => None end
  | None => None end
  | None => None end.

(** A time value outside of 100 000 000 days around the epoch is no time
    value. *)
Definition timeClip (t : Z) : JS.number :=
  if Z.abs t <=? 8640000000000000 then JS.Int t else JS.NaN.

(** A date YYYY-MM-DD alone, or followed by T and a time of day.  The day
    of the month may run to 31 in any month and then counts on into the
    next. *)
Definition parse (s : string) : JS.number :=
  match year s with
  | Some (y, s) =>
  match expect "-" s with
  | Some s =>
  match digits 2 0 s with
  | Some (m, s) =>
  match expect "-" s with
  | Some s =>
  match digits 2 0 s with
  | Some (d, s) =>
      if (1 <=? m) && (m <=? 12) && (1 <=? d) && (d <=? 31)
      then
        match s with
        | EmptyString => timeClip (days_from_civil y m d * 86400000)
        | _ =>
            match expect "T" s with
            | Some s =>
                match time_of_day s with
                | Some ms => timeClip (days_from_civil y m d * 86400000 + ms)
                | None => JS.NaN
                end
            | None => JS.NaN
            end
        end
      else JS.NaN
  | None => JS.NaN end
  | None => JS.NaN end
  | None => JS.NaN end
  | None => JS.NaN end
  | None => JS.NaN end.

(** This host prints a time value as its count of milliseconds; the
    exporter is indifferent to what the locale rendering looks like. *)
Definition render (t : Z) : string := JS.Z_toString t.

Definition runtime : JS.Runtime :=
  {| JS.Date_parse := parse;
     JS.localeString := render;
     JS.Date_parse_empty := eq_refl |}.

End UtcHost.

(* ================================================================== *)
(** ** Vocabulary of the properties *)

(** The record that [i] references in the store, if there is one. *)
Definition persisted (r : Repository) (i : Z) : option Incident :=
  find (fun inc => id inc =? i) (rows r).

(** The keys are distinct and below the next generated key. *)
Definition wf (r : Repository) : Prop :=
  NoDup (map id (rows r)) /\
  Forall (fun inc => id inc < autoIncrement r) (rows r).

(** A fresh database. *)
Definition empty_repository (now : Z) : Repository :=
  mkRepository [] 1 now.

(** The elapsed-time summary in the words of the specification, for [H]
    elapsed whole hours. *)
Definition spec_totalTime (H : Z) : string :=
  if 24 <=? H
  then JS.Z_toString (H / 24) ++ " days"
  else JS.Z_toString H ++ " hours".

(** Whole hours from time value [t0] to time value [t1]. *)
Definition elapsed_hours (t0 t1 : Z) : Z := (t1 - t0) / 3600000.

(** The operations of the service, and what running one leaves behind:
    the exception it ended in, if any, and the store. *)
Inductive Operation : Type :=
| OpCreate (dto : CreateIncidentDto.t)
| OpList
| OpUpdate (i : Z) (dto : UpdateIncidentDto.t)
| OpDelete (i : Z)
| OpExport.

Definition error_of {A} (x : Outcome A * Repository) : option Exception :=
  match fst x with
  | Returned _ => None
  | Thrown e => Some e
  end.

Definition run {rt : JS.Runtime} (op : Operation) (r : Repository)
    : option Exception * Repository :=
  match op with
  | OpCreate dto =>
      let x := IncidentsService.create dto r in (error_of x, snd x)
  | OpList =>
      let x := IncidentsService.findAll r in (error_of x, snd x)
  | OpUpdate i dto =>
      let x := IncidentsService.update i dto r in (error_of x, snd x)
  | OpDelete i =>
      let x := IncidentsService.remove i r in (error_of x, snd x)
  | OpExport =>
      let x := IncidentsService.exportToCSV r in (error_of x, snd x)
  end.

(** The reading of "a supplied status replaces the old one" that makes no
    exception: whatever string the request carries as its status is the
    status of the record afterwards. *)
Definition status_replaced_by_any {rt : JS.Runtime} (r : Repository) (i : Z)
    (dto : UpdateIncidentDto.t) : Prop :=
  forall inc s,
    persisted r i = Some inc ->
    UpdateIncidentDto.status dto = Some s ->
    exists inc' r',
      IncidentsService.update i dto r = (Returned inc', r') /\
      persisted r' i = Some inc' /\
      status inc' = s.




(** The stores the service can bring about: a fresh database, and what any
    operation leaves behind. *)
Inductive reachable {rt : JS.Runtime} : Repository -> Prop :=
| reachable_fresh (now : Z) : reachable (empty_repository now)
| reachable_run (op : Operation) (r : Repository) :
    reachable r -> reachable (snd (run op r)).

(** How often the character [c] occurs in [s]. *)
Fixpoint occurrences (c : ascii) (s : string) : nat :=
  match s with
  | EmptyString => 0%nat
  | String c' rest =>
      ((if Ascii.eqb c c' then 1 else 0) + occurrences c rest)%nat
  end.

Definition dquote : ascii := ascii_of_nat 34.

(** The header line and one data line of the export, written out column
    by column as the specification lists them. *)
Definition spec_header : string :=
  "ID,Reported By,Assigned To,Date & Time,Description,Status,Closed On,Total Time".

Definition spec_field (value : string) : string :=
  String dquote (value ++ String dquote EmptyString).

Definition spec_row {rt : JS.Runtime} (inc : Incident) : string :=
  spec_field (JS.Z_toString (id inc)) ++ "," ++
  spec_field (reportedBy inc) ++ "," ++
  spec_field (assignedTo inc) ++ "," ++
  spec_field (JS.toLocaleString (dateTime inc)) ++ "," ++
  spec_field (description inc) ++ "," ++
  spec_field (status inc) ++ "," ++
  spec_field (match closedOn inc with
              | Some d => JS.toLocaleString d
              | None => EmptyString
              end) ++ "," ++
  spec_field (match totalTime inc with
              | Some t => t
              | None => EmptyString
              end).

(** The data line of one incident, as the exporter builds it. *)
Definition data_line {rt : JS.Runtime} (inc : Incident) : string :=
  JS.join "," (map IncidentsService.quoted (IncidentsService.cells inc)).

(** The header, then one line feed and one row per record. *)
Fixpoint spec_lines (rows : list string) : string :=
  match rows with
  | [] => EmptyString
  | row :: rest => JS.LF ++ row ++ spec_lines rest
  end.

(** The incidents and requests of the worked examples. *)
Definition report_2024 : CreateIncidentDto.t :=
  CreateIncidentDto.mk "Asha" "Ravi" "2024-01-01T00:00:00"
    "Printer on fire" None None None None.

Definition store_2024 : Repository :=
  snd (IncidentsService.create (rt := UtcHost.runtime) report_2024
         (empty_repository 1704067300000)).

Definition close_at (c : string) : UpdateIncidentDto.t :=
  UpdateIncidentDto.mk (Some "Closed") (Some c).

(** An incident dated at the earliest time value, one dated at the latest,
    and two closing times more than 2^53 milliseconds away from them. *)
Definition report_earliest : CreateIncidentDto.t :=
  CreateIncidentDto.mk "Asha" "Ravi" "-271821-04-20T00:00:00.000Z"
    "First entry of the log" None None None None.

Definition store_earliest : Repository :=
  snd (IncidentsService.create (rt := UtcHost.runtime) report_earliest
         (empty_repository 0)).

Definition report_latest : CreateIncidentDto.t :=
  CreateIncidentDto.mk "Asha" "Ravi" "+275760-09-13T00:00:00.000Z"
    "Last entry of the log" None None None None.

Definition store_latest : Repository :=
  snd (IncidentsService.create (rt := UtcHost.runtime) report_latest
         (empty_repository 0)).

Definition far_future : string := "+218146-11-04T23:59:59.999Z".

Definition far_past : string := "-214207-02-25T23:59:59.999Z".

(** A creation request whose body carries a status and a totalTime. *)
Definition report_closed : CreateIncidentDto.t :=
  CreateIncidentDto.mk "Asha" "Ravi" "2024-01-01T00:00:00"
    "Printer on fire" None (Some "Closed") None (Some "9 days").

Definition report_quote : CreateIncidentDto.t :=
  CreateIncidentDto.mk "Asha" "Ravi" "2024-01-01T00:00:00"
    ("say " ++ JS.DQUOTE ++ "hi" ++ JS.DQUOTE) None None None None.

Definition store_quote : Repository :=
  snd (IncidentsService.create (rt := UtcHost.runtime) report_quote
         (empty_repository 0)).

(* ================================================================== *)
(** ** The controller: uploads and creation *)

Module IncidentsController.

(** The fields of [Express.Multer.File] the controller and the storage
    engine use. *)
Record MulterFile : Type := mkFile {
  originalname : string;
  filename : string
}.

(** The [filename] callback of the disk storage, with [now] the value of
    [Date.now()] and [rnd] the value of [Math.round(Math.random() * 1e9)]. *)
Definition storedName (now rnd : Z) (original : string) : string :=
  let uniqueSuffix := JS.Z_toString now ++ "-" ++ JS.Z_toString rnd in
  uniqueSuffix ++ "-" ++ original.

(** What the interceptor hands to the handler for an upload. *)
Definition upload (now rnd : Z) (original : string) : MulterFile :=
  mkFile original (storedName now rnd original).

Section WithRuntime.
Context {rt : JS.Runtime}.

(** [create(createIncidentDto, file)] *)
Definition create (createIncidentDto : CreateIncidentDto.t)
    (file : option MulterFile) : M Incident :=
  let createIncidentDto :=
    match file with
    | Some f =>
        CreateIncidentDto.mk
          (CreateIncidentDto.reportedBy createIncidentDto)
          (CreateIncidentDto.assignedTo createIncidentDto)
          (CreateIncidentDto.dateTime createIncidentDto)
          (CreateIncidentDto.description createIncidentDto)
          (Some (filename f))
          (CreateIncidentDto.status createIncidentDto)
          (CreateIncidentDto.closedOn createIncidentDto)
          (CreateIncidentDto.totalTime createIncidentDto)
    | None => createIncidentDto
    end in
  IncidentsService.create createIncidentDto.

End WithRuntime.

End IncidentsController.

(* ================================================================== *)
(** ** The edit form of the client *)

Module EditForm.

(** [status === 'Closed'] *)
Definition isClosed (s : string) : bool := (s =? "Closed")%string.

(** The state [editData].  Its status is typed as one of three texts but
    is whatever text [handleEdit] copied from the record. *)
Record EditData : Type := mkEditData {
  status : string;
  closedOn : string
}.

Section WithBrowser.
Context {browser : JS.Runtime}.
Variable toISOString : Z -> string.

(** [new Date(s).toISOString()], which throws a RangeError on an invalid
    date: [None]. *)
Definition isoOf (s : string) : option string :=
  match JS.getTime (JS.Date_of_string s) with
  | JS.Int t => Some (toISOString t)
  | JS.NaN => None
  end.

(** The [updateData] that [handleEditSubmit] sends; [None] when building
    it throws, in which case nothing is sent. *)
Definition updateData (editData : EditData) : option UpdateIncidentDto.t :=
  if isClosed (status editData) && JS.truthy (closedOn editData)
  then
    match isoOf (closedOn editData) with
    | Some iso =>
        Some (UpdateIncidentDto.mk (Some (status editData)) (Some iso))
    | None => None
    end
  else Some (UpdateIncidentDto.mk (Some (status editData)) None).

(** The [disabled] attribute of the Update button. *)
Definition updateDisabled (loading : bool) (editData : EditData) : bool :=
  loading
  || (isClosed (status editData) && negb (JS.truthy (closedOn editData))).

End WithBrowser.

End EditForm.

(* ================================================================== *)
(** ** ISO text of a time value, in the UTC zone *)

Module UtcText.

(** The civil date of a day count from 1970-01-01. *)
Definition civil_from_days (z : Z) : Z * Z * Z :=
  let z := z + 719468 in
  let era := z / 146097 in
  let doe := z - era * 146097 in
  let yoe := (doe - doe / 1460 + doe / 36524 - doe / 146096) / 365 in
  let y := yoe + era * 400 in
  let doy := doe - (365 * yoe + yoe / 4 - yoe / 100) in
  let mp := (5 * doy + 2) / 153 in
  let d := doy - (153 * mp + 2) / 5 + 1 in
  let m := if mp <? 10 then mp + 3 else mp - 9 in
  (if m <=? 2 then y + 1 else y, m, d).

Fixpoint zeros (n : nat) : string :=
  match n with
  | O => EmptyString
  | S n' => String "0" (zeros n')
  end.

(** A natural number on at least [width] digits. *)
Definition pad (width : nat) (n : Z) : string :=
  let digits := JS.Z_toString n in
  zeros (width - String.length digits) ++ digits.

Definition year_text (y : Z) : string :=
  if (0 <=? y) && (y <=? 9999) then pad 4 y
  else (if y <? 0 then "-" else "+") ++ pad 6 (Z.abs y).

(** [toISOString()] of a valid time value. *)
Definition toISOString (t : Z) : string :=
  let day := t / 86400000 in
  let ms := t mod 86400000 in
  let '(y, m, d) := civil_from_days day in
  year_text y ++ "-" ++ pad 2 m ++ "-" ++ pad 2 d ++ "T" ++
  pad 2 (ms / 3600000) ++ ":" ++ pad 2 ((ms / 60000) mod 60) ++ ":" ++
  pad 2 ((ms / 1000) mod 60) ++ "." ++ pad 3 (ms mod 1000) ++ "Z".

End UtcText.

(** The sum of the occurrences of [c] over the cells of some incidents. *)
Definition occurrences_in_cells {rt : JS.Runtime} (c : ascii)
    (incidents : list Incident) : nat :=
  list_sum
    (map (fun inc => list_sum (map (occurrences c) (IncidentsService.cells inc)))
       incidents).

(** The dash that the storage engine puts between the parts of a stored
    file name. *)
Definition dash : ascii := "-"%char.

(** The separator that closes one field of a data row and opens the
    next. *)
Definition field_break : string := JS.DQUOTE ++ "," ++ JS.DQUOTE.

(* ================================================================== *)
(** ** The host and the arithmetic on examples *)

Example parse_new_year :
  UtcHost.parse "2024-01-01T00:00:00" = JS.Int 1704067200000.
Proof. reflexivity. Qed.

Example parse_iso_with_zone :
  UtcHost.parse "2024-01-02T05:00:00.000Z" = JS.Int 1704171600000.
Proof. reflexivity. Qed.

Example parse_before_epoch :
  UtcHost.parse "1969-12-31T23:59:59.999Z" = JS.Int (-1).
Proof. reflexivity. Qed.

Example parse_date_only :
  UtcHost.parse "2024-01-02" = JS.Int 1704153600000.
Proof. reflexivity. Qed.

Example parse_day_runs_on :
  UtcHost.parse "2024-02-30T05:00" = UtcHost.parse "2024-03-01T05:00".
Proof. reflexivity. Qed.

Example parse_not_a_date :
  UtcHost.parse "2024-13-01T05:00" = JS.NaN /\
  UtcHost.parse "2024-01-02T05:00.123" = JS.NaN /\
  UtcHost.parse "soon" = JS.NaN.
Proof. repeat split; reflexivity. Qed.

Example parse_far_dates :
  UtcHost.parse "-271821-04-20T00:00:00.000Z" = JS.Int (-8640000000000000) /\
  UtcHost.parse "+275760-09-13T00:00:00.000Z" = JS.Int 8640000000000000 /\
  UtcHost.parse "+275760-09-13T00:00:00.001Z" = JS.NaN.
Proof. repeat split; reflexivity. Qed.

Example iso_text_2024 :
  UtcText.toISOString 1704171600000 = "2024-01-02T05:00:00.000Z" /\
  UtcHost.parse (UtcText.toISOString 1704171600000) = JS.Int 1704171600000.
Proof. split; reflexivity. Qed.

Example iso_text_before_epoch :
  UtcText.toISOString (-1) = "1969-12-31T23:59:59.999Z".
Proof. reflexivity. Qed.

Example elapsed_29_hours :
  IncidentsService.elapsed (JS.mkDate (JS.Int 1704067200000))
    (JS.mkDate (JS.Int 1704171600000)) = "1 days".
Proof. reflexivity. Qed.

Example elapsed_23_hours_59 :
  IncidentsService.elapsed (JS.mkDate (JS.Int 0))
    (JS.mkDate (JS.Int 86399999)) = "23 hours".
Proof. reflexivity. Qed.

Example elapsed_invalid_date :
  IncidentsService.elapsed (JS.mkDate (JS.Int 0)) (JS.mkDate JS.NaN)
  = "NaN hours".
Proof. reflexivity. Qed.

(* ================================================================== *)
(** ** Doubles that hold safe whole numbers *)

(** A whole number below 2^53 in magnitude is its own double, and the
    floor of the double quotient of such a number by a whole divisor is the
    floor of the exact quotient. *)
Lemma to_double_exact z : JS.safe z -> JS.to_double z = z.
Proof.
  unfold JS.safe, JS.to_double. intros H.
  destruct (Z.leb_spec (Z.log2 (Z.abs z) - 52) 0) as [_|Hgt]; [reflexivity|].
  exfalso. destruct (Z.eq_dec (Z.abs z) 0) as [E|E].
  - rewrite E in Hgt. simpl in Hgt. lia.
  - assert (Z.log2 (Z.abs z) < 53) by (apply Z.log2_lt_pow2; lia). lia.
Qed.

(** Rounding a scaled quotient cannot cross a whole number when the scale
    exceeds half the divisor. *)
Lemma round_scaled (a d S : Z) :
  0 <= a -> 0 < d -> 0 < S -> d < 2 * S ->
  JS.round_half_even (a * S) d / S = a / d /\
  (JS.round_half_even (a * S) d + S - 1) / S = (a + d - 1) / d.
Proof.
  intros Ha Hd HS HdS.
  pose proof (Z.div_mod a d ltac:(lia)) as Ea.
  pose proof (Z.mod_pos_bound a d Hd) as Hrho.
  set (n := a / d) in *. set (rho := a mod d) in *.
  pose proof (Z.div_mod (a * S) d ltac:(lia)) as Em.
  pose proof (Z.mod_pos_bound (a * S) d Hd) as Hr.
  unfold JS.round_half_even.
  set (m0 := a * S / d) in *. set (r := (a * S) mod d) in *.
  assert (Hlo : n * S <= m0) by nia.
  assert (Hhi : m0 <= n * S + S - 1) by nia.
  assert (Hup : m0 = n * S + S - 1 -> 2 * r < d) by nia.
  assert (Hzero : rho = 0 -> m0 = n * S /\ r = 0) by nia.
  assert (Hdown : 1 <= rho -> m0 = n * S -> d < 2 * r) by nia.
  assert (Hceil : (a + d - 1) / d = if rho =? 0 then n else n + 1).
  { destruct (Z.eqb_spec rho 0) as [E|E]; symmetry;
      apply Z.div_unique with (r := if rho =? 0 then d - 1 else rho - 1);
      destruct (Z.eqb_spec rho 0); try lia; nia. }
  rewrite Hceil.
  destruct ((d <? 2 * r) || ((2 * r =? d) && Z.odd m0)) eqn:Hround.
  - assert (Hge : d <= 2 * r).
    { apply orb_true_iff in Hround. destruct Hround as [H|H].
      - apply Z.ltb_lt in H. lia.
      - apply andb_true_iff in H. destruct H as [H _]. apply Z.eqb_eq in H. lia. }
    assert (m0 < n * S + S - 1) by (destruct (Z.eq_dec m0 (n * S + S - 1)); [specialize (Hup e); lia|lia]).
    split.
    + symmetry. apply Z.div_unique with (r := m0 + 1 - n * S); nia.
    + destruct (Z.eqb_spec rho 0) as [E|E].
      * destruct (Hzero E) as [_ Hr0]. lia.
      * symmetry. apply Z.div_unique with (r := m0 + 1 + S - 1 - (n + 1) * S); nia.
  - assert (Hlt : 2 * r <= d).
    { apply orb_false_iff in Hround. destruct Hround as [H _].
      apply Z.ltb_ge in H. lia. }
    split.
    + symmetry. apply Z.div_unique with (r := m0 - n * S); nia.
    + destruct (Z.eqb_spec rho 0) as [E|E].
      * destruct (Hzero E) as [Hm0 _].
        symmetry. apply Z.div_unique with (r := S - 1); nia.
      * assert (m0 <> n * S) by (intros Hm; specialize (Hdown ltac:(lia) Hm); lia).
        symmetry. apply Z.div_unique with (r := m0 + S - 1 - (n + 1) * S); nia.
Qed.

Lemma quotient_exponent_scale (a d : Z) :
  0 < a -> a < 2 ^ 53 -> 2 <= d ->
  JS.quotient_exponent a d < 0 /\ d < 2 * 2 ^ (- JS.quotient_exponent a d).
Proof.
  intros Ha Ha53 Hd. unfold JS.quotient_exponent.
  assert (Hla : Z.log2 a < 53) by (apply Z.log2_lt_pow2; lia).
  assert (Hla0 : 0 <= Z.log2 a) by apply Z.log2_nonneg.
  assert (Hld : 1 <= Z.log2 d) by (apply Z.log2_le_pow2; simpl; lia).
  pose proof (Z.log2_spec d ltac:(lia)) as [_ Hdu].
  set (k := Z.log2 a - Z.log2 d) in *.
  set (lg := if (if 0 <=? k then d * 2 ^ k <=? a else d <=? a * 2 ^ (- k)) then k else k - 1).
  assert (Hlg : lg <= k) by (unfold lg; destruct (if 0 <=? k then _ else _); lia).
  split; [lia|].
  replace (2 * 2 ^ (- (lg - 52))) with (2 ^ (Z.succ (52 - lg)))
    by (rewrite Z.pow_succ_r by lia; f_equal; f_equal; lia).
  eapply Z.lt_le_trans; [exact Hdu|].
  apply Z.pow_le_mono_r; lia.
Qed.

Lemma floor_quotient_exact (x d : Z) :
  JS.safe x -> 2 <= d -> JS.floor_quotient x d = x / d.
Proof.
  unfold JS.safe. intros Hx Hd. unfold JS.floor_quotient.
  destruct (Z.eqb_spec (Z.abs x) 0) as [E|E].
  - assert (x = 0) by lia. subst x. now rewrite Z.div_0_l by lia.
  - destruct (quotient_exponent_scale (Z.abs x) d ltac:(lia) Hx Hd) as [He HS].
    destruct (Z.leb_spec 0 (JS.quotient_exponent (Z.abs x) d)) as [H|_]; [lia|].
    set (S := 2 ^ (- JS.quotient_exponent (Z.abs x) d)) in *.
    assert (HSpos : 0 < S) by (apply Z.pow_pos_nonneg; lia).
    destruct (round_scaled (Z.abs x) d S ltac:(lia) ltac:(lia) HSpos HS) as [H1 H2].
    destruct (Z.ltb_spec 0 x) as [Hpos|Hneg].
    + rewrite H1. now rewrite Z.abs_eq by lia.
    + rewrite H2. rewrite Z.abs_neq by lia.
      apply Z.div_unique with (r := x - d * - ((- x + d - 1) / d)).
      * pose proof (Z.div_mod (- x + d - 1) d ltac:(lia)).
        pose proof (Z.mod_pos_bound (- x + d - 1) d ltac:(lia)). left. nia.
      * lia.
Qed.

Lemma quotient_safe (x d : Z) : JS.safe x -> 1 <= d -> JS.safe (x / d).
Proof.
  unfold JS.safe. intros Hx Hd.
  pose proof (Z.div_mod x d ltac:(lia)).
  pose proof (Z.mod_pos_bound x d ltac:(lia)).
  assert (- Z.abs x <= x / d <= Z.abs x) by nia. lia.
Qed.

(* ================================================================== *)
(** ** Strings *)

Lemma append_nil_r (s : string) : s ++ "" = s.
Proof. induction s as [|c s IH]; simpl; [reflexivity | now rewrite IH]. Qed.

Lemma append_assoc (a b c : string) : (a ++ b) ++ c = a ++ (b ++ c).
Proof. induction a as [|x a IH]; simpl; [reflexivity | now rewrite IH]. Qed.

Lemma length_append (a b : string) :
  String.length (a ++ b) = (String.length a + String.length b)%nat.
Proof. induction a as [|x a IH]; simpl; [reflexivity | now rewrite IH]. Qed.

Lemma occurrences_append (c : ascii) (a b : string) :
  occurrences c (a ++ b) = (occurrences c a + occurrences c b)%nat.
Proof.
  induction a as [|x a IH]; simpl; [reflexivity | rewrite IH; lia].
Qed.


(* ================================================================== *)
(** ** The repository *)

Lemma persisted_id (r : Repository) (i : Z) (inc : Incident) :
  persisted r i = Some inc -> id inc = i.
Proof.
  unfold persisted; intros H.
  apply find_some in H. destruct H as [_ H]. now apply Z.eqb_eq.
Qed.

Lemma find_overwritten (i : Z) (inc' : Incident) (l : list Incident) :
  id inc' = i ->
  find (fun inc => id inc =? i) l <> None ->
  find (fun inc => id inc =? i)
       (map (fun row => if id row =? id inc' then inc' else row) l)
  = Some inc'.
Proof.
  intros Hid; subst i. induction l as [|x l IH]; simpl; intros H.
  - congruence.
  - destruct (id x =? id inc') eqn:E; simpl.
    + now rewrite Z.eqb_refl.
    + rewrite E. apply IH. exact H.
Qed.

Lemma filter_none_found (i : Z) (l : list Incident) :
  find (fun inc => id inc =? i) l = None ->
  filter (fun inc => negb (id inc =? i)) l = l.
Proof.
  induction l as [|x l IH]; simpl; [reflexivity|].
  destruct (id x =? i); simpl; [discriminate|].
  intros H. now rewrite IH.
Qed.

(** A filter drops rows, it adds none. *)
Lemma filter_length_le {A} (keep : A -> bool) (table : list A) :
  (length (filter keep table) <= length table)%nat.
Proof.
  induction table as [|row table IH]; simpl; [lia|].
  destruct (keep row); simpl; lia.
Qed.

Lemma filter_same_length {A} (p : A -> bool) (l : list A) :
  length (filter p l) = length l -> filter p l = l.
Proof.
  induction l as [|x l IH]; simpl; [reflexivity|].
  destruct (p x); simpl; intros H.
  - f_equal. apply IH. lia.
  - pose proof (filter_length_le p l). lia.
Qed.

(* ================================================================== *)
(** ** The update engine *)

Section UpdateEngine.
Context {rt : JS.Runtime}.

Lemma apply_update_id (inc : Incident) (dto : UpdateIncidentDto.t) :
  id (IncidentsService.apply_update inc dto) = id inc.
Proof.
  unfold IncidentsService.apply_update.
  destruct (supplied (UpdateIncidentDto.status dto));
    destruct (supplied (UpdateIncidentDto.closedOn dto)); reflexivity.
Qed.

(** On an existing record, [update] returns the entity with the two
    conditional assignments applied, and that entity is what the store then
    holds under the id. *)
Lemma update_existing (r : Repository) (i : Z) (inc : Incident)
    (dto : UpdateIncidentDto.t) :
  persisted r i = Some inc ->
  exists r',
    IncidentsService.update i dto r
      = (Returned (IncidentsService.apply_update inc dto), r') /\
    persisted r' i = Some (IncidentsService.apply_update inc dto).
Proof.
  intros H. pose proof (persisted_id _ _ _ H) as Hid.
  unfold IncidentsService.update, bind, Repo.findOne, Repo.save.
  unfold persisted in H. rewrite H.
  eexists; split; [reflexivity|].
  unfold persisted; simpl. apply find_overwritten.
  - now rewrite apply_update_id.
  - congruence.
Qed.

(** What [elapsed] computes from two time values: the hours of the double
    nearest to their difference. *)
Lemma elapsed_doubles (start end_ : JS.Date) (t0 t1 : Z) :
  JS.getTime start = JS.Int t0 ->
  JS.getTime end_ = JS.Int t1 ->
  IncidentsService.elapsed start end_
  = let diffHours := JS.floor_quotient (JS.to_double (t1 - t0)) 3600000 in
    let diffDays := JS.floor_quotient diffHours 24 in
    if diffDays >? 0
    then JS.Z_toString diffDays ++ " days"
    else JS.Z_toString diffHours ++ " hours".
Proof.
  intros H0 H1. unfold IncidentsService.elapsed. now rewrite H0, H1.
Qed.

(** For two time values less than 2^53 milliseconds apart no rounding
    occurs: with [H] whole hours elapsed, the days branch is taken exactly
    from 24 hours on. *)
Lemma elapsed_spec (start end_ : JS.Date) (t0 t1 : Z) :
  JS.getTime start = JS.Int t0 ->
  JS.getTime end_ = JS.Int t1 ->
  JS.safe (t1 - t0) ->
  IncidentsService.elapsed start end_ = spec_totalTime (elapsed_hours t0 t1).
Proof.
  intros H0 H1 Hsafe. rewrite (elapsed_doubles start end_ t0 t1 H0 H1).
  unfold spec_totalTime, elapsed_hours.
  rewrite (to_double_exact _ Hsafe).
  rewrite (floor_quotient_exact (t1 - t0) 3600000 Hsafe) by lia.
  assert (Hh : JS.safe ((t1 - t0) / 3600000))
    by (apply quotient_safe; [exact Hsafe|lia]).
  rewrite (floor_quotient_exact _ 24 Hh) by lia. cbv zeta.
  set (H := (t1 - t0) / 3600000).
  destruct (Z.leb_spec 24 H) as [Hge|Hlt].
  - assert (1 <= H / 24) by (apply Z.div_le_lower_bound; lia).
    replace (H / 24 >? 0) with true by (symmetry; apply Z.gtb_lt; lia).
    reflexivity.
  - assert (H / 24 < 1) by (apply Z.div_lt_upper_bound; lia).
    replace (H / 24 >? 0) with false
      by (symmetry; rewrite Z.gtb_ltb; apply Z.ltb_ge; lia).
    reflexivity.
Qed.

Lemma supplied_date (c : string) (t : Z) :
  JS.Date_parse c = JS.Int t -> supplied (Some c) = Some c.
Proof.
  intros H. unfold supplied, JS.truthy.
  destruct (String.eqb_spec c "") as [->|_]; [|reflexivity].
  rewrite JS.Date_parse_empty in H. discriminate.
Qed.

(** The assignments of [update] when a closedOn timestamp is supplied. *)
Lemma apply_update_closedOn (inc : Incident) (dto : UpdateIncidentDto.t)
    (c : string) (t0 t1 : Z) :
  JS.getTime (dateTime inc) = JS.Int t0 ->
  UpdateIncidentDto.closedOn dto = Some c ->
  JS.Date_parse c = JS.Int t1 ->
  JS.safe (t1 - t0) ->
  totalTime (IncidentsService.apply_update inc dto)
    = Some (spec_totalTime (elapsed_hours t0 t1)) /\
  closedOn (IncidentsService.apply_update inc dto)
    = Some (JS.mkDate (JS.Int t1)).
Proof.
  intros H0 Hc H1 Hsafe. unfold IncidentsService.apply_update.
  rewrite Hc, (supplied_date c t1 H1).
  destruct (supplied (UpdateIncidentDto.status dto));
    cbn [totalTime closedOn set_closedOn set_totalTime set_status dateTime];
    (split; [f_equal; apply elapsed_spec;
             [exact H0 | unfold JS.Date_of_string; cbn [JS.getTime]; exact H1
              | exact Hsafe]
            | unfold JS.Date_of_string; now rewrite H1]).
Qed.

(** Without a closedOn, both derived fields keep their values. *)
Lemma apply_update_frame (inc : Incident) (dto : UpdateIncidentDto.t) :
  supplied (UpdateIncidentDto.closedOn dto) = None ->
  closedOn (IncidentsService.apply_update inc dto) = closedOn inc /\
  totalTime (IncidentsService.apply_update inc dto) = totalTime inc.
Proof.
  intros H. unfold IncidentsService.apply_update. rewrite H.
  destruct (supplied (UpdateIncidentDto.status dto)); simpl; auto.
Qed.

(** The status after the assignments: the supplied one if it is truthy,
    the old one otherwise. *)
Lemma apply_update_status (inc : Incident) (dto : UpdateIncidentDto.t) :
  status (IncidentsService.apply_update inc dto)
  = match supplied (UpdateIncidentDto.status dto) with
    | Some s => s
    | None => status inc
    end.
Proof.
  unfold IncidentsService.apply_update.
  destruct (supplied (UpdateIncidentDto.status dto));
    destruct (supplied (UpdateIncidentDto.closedOn dto)); reflexivity.
Qed.

End UpdateEngine.




Example far_future_rounds :
  option_map totalTime
    (persisted
       (snd (IncidentsService.update (rt := UtcHost.runtime) 1
               (close_at far_future) store_earliest)) 1)
  = Some (Some "178956971 days") /\
  spec_totalTime (elapsed_hours (-8640000000000000) 6821882294399999)
  = "178956970 days".
Proof. split; vm_compute; reflexivity. Qed.




Example far_past_rounds :
  option_map totalTime
    (persisted
       (snd (IncidentsService.update (rt := UtcHost.runtime) 1
               (close_at far_past) store_latest)) 1)
  = Some (Some "-4294967304 hours") /\
  JS.Z_toString (elapsed_hours 8640000000000000 (-6821882294400001))
  = "-4294967305".
Proof. split; vm_compute; reflexivity. Qed.

(** C2.  An update that supplies no closedOn leaves closedOn and totalTime
    of the record as they were, whatever status it supplies, Closed
    included. *)
Theorem update_without_closedOn_frame :
  forall (rt : JS.Runtime) (r : Repository) (i : Z) (inc : Incident)
         (dto : UpdateIncidentDto.t),
    persisted r i = Some inc ->
    UpdateIncidentDto.closedOn dto = None ->
    exists inc' r',
      IncidentsService.update i dto r = (Returned inc', r') /\
      persisted r' i = Some inc' /\
      closedOn inc' = closedOn inc /\
      totalTime inc' = totalTime inc.
Proof.
  intros rt r i inc dto Hp Hc.
  destruct (update_existing r i inc dto Hp) as (r' & Hrun & Hp').
  assert (Hs : supplied (UpdateIncidentDto.closedOn dto) = None)
    by now rewrite Hc.
  destruct (apply_update_frame inc dto Hs) as [H1 H2].
  exists (IncidentsService.apply_update inc dto), r'. auto.
Qed.

Lemma update_without_closedOn_frame_witness :
  exists inc' r',
    IncidentsService.update (rt := UtcHost.runtime) 1
      (UpdateIncidentDto.mk (Some "Closed") None) store_2024
      = (Returned inc', r') /\
    persisted r' 1 = Some inc' /\
    closedOn inc' = None /\
    totalTime inc' = None.
Proof.
  exact (update_without_closedOn_frame UtcHost.runtime store_2024 1
           (mkIncident 1 "Asha" "Ravi" (JS.mkDate (JS.Int 1704067200000))
              "Printer on fire" None "Open" None None
              (JS.mkDate (JS.Int 1704067300000)))
           (UpdateIncidentDto.mk (Some "Closed") None) eq_refl eq_refl).
Defined.

(** C3, as the code has it.  An update that supplies a non-empty status
    makes it the status of the record, whatever the old status and
    whatever the new one: no transition is refused.  An update whose status
    is the empty string leaves the status of the record as it was. *)
Theorem update_status_replaced :
  forall (rt : JS.Runtime) (r : Repository) (i : Z) (inc : Incident)
         (dto : UpdateIncidentDto.t) (s : string),
    persisted r i = Some inc ->
    UpdateIncidentDto.status dto = Some s ->
    exists inc' r',
      IncidentsService.update i dto r = (Returned inc', r') /\
      persisted r' i = Some inc' /\
      (s <> "" -> status inc' = s) /\
      (s = "" -> status inc' = status inc).
Proof.
  intros rt r i inc dto s Hp Hs.
  destruct (update_existing r i inc dto Hp) as (r' & Hrun & Hp').
  exists (IncidentsService.apply_update inc dto), r'.
  split; [exact Hrun|]. split; [exact Hp'|].
  rewrite apply_update_status, Hs. unfold supplied, JS.truthy.
  destruct (String.eqb_spec s "") as [E|E]; simpl; split; intros H;
    congruence.
Qed.

Lemma update_status_replaced_witness :
  (exists inc' r',
     IncidentsService.update (rt := UtcHost.runtime) 1
       (UpdateIncidentDto.mk (Some "Closed") None) store_2024
       = (Returned inc', r') /\
     persisted r' 1 = Some inc' /\
     status inc' = "Closed") /\
  (exists inc' r',
     IncidentsService.update (rt := UtcHost.runtime) 1
       (UpdateIncidentDto.mk (Some "") None) store_2024
       = (Returned inc', r') /\
     persisted r' 1 = Some inc' /\
     status inc' = "Open").
Proof.
  split.
  - destruct (update_status_replaced UtcHost.runtime store_2024 1
                (mkIncident 1 "Asha" "Ravi"
                   (JS.mkDate (JS.Int 1704067200000))
                   "Printer on fire" None "Open" None None
                   (JS.mkDate (JS.Int 1704067300000)))
                (UpdateIncidentDto.mk (Some "Closed") None) "Closed"
                eq_refl eq_refl)
      as (inc' & r' & Hrun & Hp & Hset & _).
    exists inc', r'. repeat split; try assumption.
    apply Hset. discriminate.
  - destruct (update_status_replaced UtcHost.runtime store_2024 1
                (mkIncident 1 "Asha" "Ravi"
                   (JS.mkDate (JS.Int 1704067200000))
                   "Printer on fire" None "Open" None None
                   (JS.mkDate (JS.Int 1704067300000)))
                (UpdateIncidentDto.mk (Some "") None) ""
                eq_refl eq_refl)
      as (inc' & r' & Hrun & Hp & _ & Hkeep).
    exists inc', r'. repeat split; try assumption.
    exact (Hkeep eq_refl).
Defined.

(** C3, as stated, fails: a request whose status is the empty string
    leaves the record Open. *)
Lemma update_status_empty_counterexample :
  ~ status_replaced_by_any (rt := UtcHost.runtime) store_2024 1
      (UpdateIncidentDto.mk (Some "") None).
Proof.
  intros H.
  destruct (H (mkIncident 1 "Asha" "Ravi" (JS.mkDate (JS.Int 1704067200000))
                 "Printer on fire" None "Open" None None
                 (JS.mkDate (JS.Int 1704067300000)))
              "" eq_refl eq_refl)
    as (inc' & r' & Hrun & _ & Hst).
  vm_compute in Hrun. injection Hrun as Hinc _. subst inc'.
  discriminate Hst.
Qed.

(* ================================================================== *)
(** ** Error paths *)

Lemma repository_eta (r : Repository) :
  mkRepository (rows r) (autoIncrement r) (clock r) = r.
Proof. now destruct r. Qed.

Section Errors.
Context {rt : JS.Runtime}.

Lemma update_missing (r : Repository) (i : Z) (dto : UpdateIncidentDto.t) :
  persisted r i = None ->
  IncidentsService.update i dto r
  = (Thrown (NotFoundException (IncidentsService.not_found_message i)), r).
Proof.
  intros H. unfold IncidentsService.update, bind, Repo.findOne.
  unfold persisted in H. now rewrite H.
Qed.

Lemma remove_missing (r : Repository) (i : Z) :
  persisted r i = None ->
  IncidentsService.remove i r
  = (Thrown (NotFoundException (IncidentsService.not_found_message i)), r).
Proof.
  intros H. unfold IncidentsService.remove, bind, Repo.delete.
  rewrite (filter_none_found i (rows r) H); simpl.
  rewrite Z.sub_diag; simpl. now rewrite repository_eta.
Qed.

(** On an existing id [remove] returns, and the id references nothing
    afterwards. *)
Lemma remove_existing (r : Repository) (i : Z) (inc : Incident) :
  persisted r i = Some inc ->
  exists res r',
    IncidentsService.remove i r = (Returned res, r') /\
    0 < Repo.affected res /\
    persisted r' i = None.
Proof.
  intros H. unfold IncidentsService.remove, bind, Repo.delete; simpl.
  set (kept := filter (fun x => negb (id x =? i)) (rows r)).
  assert (Hnone : find (fun x => id x =? i) kept = None).
  { destruct (find (fun x => id x =? i) kept) as [y|] eqn:E; [|reflexivity].
    apply find_some in E. destruct E as [Hin Hy].
    apply filter_In in Hin. destruct Hin as [_ Hn].
    rewrite Hy in Hn. discriminate. }
  assert (Hlt : (length kept < length (rows r))%nat).
  { pose proof (filter_length_le (fun x => negb (id x =? i)) (rows r)) as Hle.
    fold kept in Hle.
    destruct (Nat.eq_dec (length kept) (length (rows r))) as [E|]; [|lia].
    apply filter_same_length in E. fold kept in E.
    unfold persisted in H. rewrite <- E, Hnone in H. discriminate. }
  destruct (Z.eqb_spec (Z.of_nat (length (rows r)) - Z.of_nat (length kept)) 0)
    as [E|_]; [lia|].
  eexists; eexists; split; [reflexivity|]. split; simpl; [lia|exact Hnone].
Qed.

Lemma remove_thrown_unchanged (r : Repository) (i : Z) (e : Exception) :
  fst (IncidentsService.remove i r) = Thrown e ->
  snd (IncidentsService.remove i r) = r.
Proof.
  unfold IncidentsService.remove, bind, Repo.delete; simpl.
  set (kept := filter (fun x => negb (id x =? i)) (rows r)).
  destruct (Z.eqb_spec (Z.of_nat (length (rows r)) - Z.of_nat (length kept)) 0)
    as [E|_]; simpl; [|discriminate].
  intros _. assert (Hk : kept = rows r)
    by (apply filter_same_length; fold kept; lia).
  rewrite Hk. apply repository_eta.
Qed.

Lemma update_thrown_unchanged (r : Repository) (i : Z)
    (dto : UpdateIncidentDto.t) (e : Exception) :
  fst (IncidentsService.update i dto r) = Thrown e ->
  snd (IncidentsService.update i dto r) = r.
Proof.
  destruct (persisted r i) as [inc|] eqn:Hp.
  - destruct (update_existing r i inc dto Hp) as (r' & Hrun & _).
    rewrite Hrun. discriminate.
  - now rewrite (update_missing r i dto Hp).
Qed.

End Errors.

(** C4.  On an id that references no record of the store, [update] throws
    NotFound and [remove] throws NotFound. *)
Theorem update_remove_not_found :
  forall (rt : JS.Runtime) (r : Repository) (i : Z)
         (dto : UpdateIncidentDto.t),
    persisted r i = None ->
    fst (IncidentsService.update i dto r)
      = Thrown (NotFoundException (IncidentsService.not_found_message i)) /\
    fst (IncidentsService.remove i r)
      = Thrown (NotFoundException (IncidentsService.not_found_message i)).
Proof.
  intros rt r i dto H.
  now rewrite (update_missing r i dto H), (remove_missing r i H).
Qed.

Lemma update_remove_not_found_witness :
  fst (IncidentsService.update (rt := UtcHost.runtime) 7
         (close_at "2024-01-02T05:00:00") store_2024)
    = Thrown (NotFoundException "Incident with ID 7 not found") /\
  fst (IncidentsService.remove 7 store_2024)
    = Thrown (NotFoundException "Incident with ID 7 not found").
Proof.
  exact (update_remove_not_found UtcHost.runtime store_2024 7
           (close_at "2024-01-02T05:00:00") eq_refl).
Defined.

(** C5.  Whichever operation runs (create, list, update, delete, export)
    and whatever the store holds, an operation that ends in an error leaves
    the store as it found it. *)
Theorem failed_operation_leaves_store :
  forall (rt : JS.Runtime) (op : Operation) (r : Repository) (e : Exception),
    fst (run op r) = Some e ->
    snd (run op r) = r.
Proof.
  intros rt op r e. destruct op as [dto| |i dto|i|]; simpl.
  - discriminate.
  - discriminate.
  - unfold error_of.
    destruct (fst (IncidentsService.update i dto r)) as [a|e'] eqn:E;
      [discriminate|].
    intros _. exact (update_thrown_unchanged r i dto e' E).
  - unfold error_of.
    destruct (fst (IncidentsService.remove i r)) as [a|e'] eqn:E;
      [discriminate|].
    intros _. exact (remove_thrown_unchanged r i e' E).
  - discriminate.
Qed.

Lemma failed_operation_leaves_store_witness :
  snd (run (rt := UtcHost.runtime) (OpDelete 7) store_2024) = store_2024.
Proof.
  exact (failed_operation_leaves_store UtcHost.runtime (OpDelete 7)
           store_2024
           (NotFoundException "Incident with ID 7 not found") eq_refl).
Defined.

(* ================================================================== *)
(** ** Creation and the generated key *)

Lemma wf_empty (now : Z) : wf (empty_repository now).
Proof. split; constructor. Qed.

Lemma overwrite_ids (inc' : Incident) (l : list Incident) :
  map id (map (fun row => if id row =? id inc' then inc' else row) l)
  = map id l.
Proof.
  induction l as [|x l IH]; simpl; [reflexivity|].
  rewrite IH. destruct (Z.eqb_spec (id x) (id inc')) as [E|_]; congruence.
Qed.

(** Deleting rows keeps the remaining keys distinct. *)
Lemma delete_keys_distinct (i : Z) (table : list Incident) :
  NoDup (map id table) ->
  NoDup (map id (filter (fun inc => negb (id inc =? i)) table)).
Proof.
  induction table as [|row table IH]; simpl; intros Hnd; [constructor|].
  apply NoDup_cons_iff in Hnd. destruct Hnd as [Hfresh Hnd].
  destruct (id row =? i); simpl; [now apply IH|].
  apply NoDup_cons; [|now apply IH].
  intros Hin. apply Hfresh. apply in_map_iff in Hin.
  destruct Hin as (other & Hid & Hin). apply filter_In in Hin.
  apply in_map_iff. exists other. tauto.
Qed.

Section Creation.
Context {rt : JS.Runtime}.

Lemma create_wf (r : Repository) (dto : CreateIncidentDto.t) :
  wf r -> wf (snd (IncidentsService.create dto r)).
Proof.
  intros [Hnd Hlt]. unfold IncidentsService.create, Repo.insert; simpl.
  split; simpl.
  - rewrite map_app; simpl. apply NoDup_app; [exact Hnd|repeat constructor; simpl; tauto|].
    intros a Ha [<-|[]]. apply in_map_iff in Ha.
    destruct Ha as (x & Hx & Hin).
    rewrite Forall_forall in Hlt. specialize (Hlt x Hin). lia.
  - apply Forall_app; split.
    + eapply Forall_impl; [|exact Hlt]. simpl; intros; lia.
    + repeat constructor; simpl; lia.
Qed.

Lemma update_wf (r : Repository) (i : Z) (dto : UpdateIncidentDto.t) :
  wf r -> wf (snd (IncidentsService.update i dto r)).
Proof.
  intros [Hnd Hlt]. unfold IncidentsService.update, bind, Repo.findOne.
  destruct (find (fun inc => id inc =? i) (rows r)) as [inc|] eqn:E; simpl;
    [|now split].
  split; simpl.
  - now rewrite overwrite_ids.
  - rewrite Forall_forall in *. intros x Hin.
    apply in_map_iff in Hin. destruct Hin as (y & Hy & Hin).
    destruct (Z.eqb_spec (id y) (id (IncidentsService.apply_update inc dto)))
      as [Eid|_]; subst x; [rewrite <- Eid|]; now apply Hlt.
Qed.

Lemma remove_wf (r : Repository) (i : Z) :
  wf r -> wf (snd (IncidentsService.remove i r)).
Proof.
  intros [Hnd Hlt]. unfold IncidentsService.remove, bind, Repo.delete; simpl.
  set (kept := filter (fun x => negb (id x =? i)) (rows r)).
  assert (Hk : wf (mkRepository kept (autoIncrement r) (clock r))).
  { split; simpl.
    - now apply delete_keys_distinct.
    - rewrite Forall_forall in *. intros x Hin.
      apply filter_In in Hin. now apply Hlt. }
  now destruct (Z.of_nat (length (rows r)) - Z.of_nat (length kept) =? 0).
Qed.

(** Every operation keeps the keys distinct and below the next one, so
    every store reached from a fresh database is well formed. *)
Lemma run_wf (op : Operation) (r : Repository) :
  wf r -> wf (snd (run op r)).
Proof.
  destruct op as [dto| |i dto|i|]; simpl; intros H.
  - now apply create_wf.
  - exact H.
  - now apply update_wf.
  - now apply remove_wf.
  - exact H.
Qed.

Lemma reachable_wf (r : Repository) : reachable r -> wf r.
Proof.
  induction 1 as [now|op r _ IH]; [apply wf_empty | now apply run_wf].
Qed.


End Creation.




Example create_body_status_stored :
  exists inc r',
    IncidentsService.create (rt := UtcHost.runtime) report_closed
      (empty_repository 0) = (Returned inc, r') /\
    status inc = "Closed" /\ totalTime inc = Some "9 days".
Proof. eexists; eexists. repeat split. Qed.

(* ================================================================== *)
(** ** The CSV exporter *)

Lemma quoted_spec_field (v : string) :
  IncidentsService.quoted v = spec_field v.
Proof. reflexivity. Qed.


Lemma join_lines (header : string) (lines : list string) :
  JS.join JS.LF (header :: lines) = header ++ spec_lines lines.
Proof.
  revert header; induction lines as [|x lines IH]; intros header.
  - simpl. now rewrite append_nil_r.
  - change (JS.join JS.LF (header :: x :: lines))
      with (header ++ JS.LF ++ JS.join JS.LF (x :: lines)).
    now rewrite IH.
Qed.

Lemma headers_joined : JS.join "," IncidentsService.headers = spec_header.
Proof. reflexivity. Qed.

Lemma or_empty (o : option string) :
  match supplied o with Some t => t | None => "" end
  = match o with Some t => t | None => "" end.
Proof.
  destruct o as [t|]; [|reflexivity]. unfold supplied, JS.truthy.
  now destruct (String.eqb_spec t "") as [->|_].
Qed.

Section CsvExport.
Context {rt : JS.Runtime}.

Lemma data_line_spec (inc : Incident) : data_line inc = spec_row inc.
Proof.
  unfold data_line, IncidentsService.cells, spec_row.
  cbn [map JS.join]. rewrite !quoted_spec_field, or_empty.
  unfold JS.Date_of_Date, JS.toLocaleString; cbn [JS.getTime].
  now destruct (closedOn inc).
Qed.

Lemma exportToCSV_lines (r : Repository) :
  IncidentsService.exportToCSV r
  = (Returned (spec_header
               ++ spec_lines (map data_line (IdDescSort.sort (rows r)))),
     r).
Proof.
  unfold IncidentsService.exportToCSV, IncidentsService.findAll,
    Repo.find_desc, bind, ret.
  now rewrite map_map, headers_joined, join_lines.
Qed.

Lemma findAll_permutation (r : Repository) :
  Permutation (rows r) (IdDescSort.sort (rows r)).
Proof. apply IdDescSort.Permuted_sort. Qed.

(** [findAll] lists the records by descending id. *)
Lemma findAll_sorted (r : Repository) :
  exists incidents,
    IncidentsService.findAll r = (Returned incidents, r) /\
    StronglySorted (fun a b => id b <= id a) incidents.
Proof.
  exists (IdDescSort.sort (rows r)). split; [reflexivity|].
  pose proof (IdDescSort.StronglySorted_sort (rows r)) as H.
  assert (Htrans : Relations_1.Transitive (fun a b => IdDesc.leb a b = true)).
  { intros a b c Hab Hbc. unfold IdDesc.leb in *.
    apply Z.leb_le in Hab, Hbc. apply Z.leb_le. lia. }
  specialize (H Htrans).
  induction H as [|a l _ IH Hall]; constructor; [exact IH|].
  eapply Forall_impl; [|exact Hall].
  intros b Hb. unfold IdDesc.leb in Hb. now apply Z.leb_le.
Qed.

End CsvExport.

(** C7.  Over a store without records the export is exactly the header
    row.  Over a store of N records it is the header row followed by N
    data rows, each behind a line feed; a data row is the 8 double-quoted
    fields ID, Reported By, Assigned To, Date & Time, Description, Status,
    Closed On, Total Time in that order, separated by commas, with Closed On
    and Total Time empty when the column is null. *)
Theorem exportToCSV_header_and_rows :
  forall (rt : JS.Runtime) (r : Repository),
    exists incidents : list Incident,
      fst (IncidentsService.findAll r) = Returned incidents /\
      Permutation (rows r) incidents /\
      length (map spec_row incidents) = length (rows r) /\
      IncidentsService.exportToCSV r
        = (Returned (spec_header ++ spec_lines (map spec_row incidents)), r) /\
      (forall inc, length (IncidentsService.cells inc) = 8%nat) /\
      (rows r = [] ->
       IncidentsService.exportToCSV r = (Returned spec_header, r)).
Proof.
  intros rt r. exists (IdDescSort.sort (rows r)).
  assert (Hperm := findAll_permutation r).
  assert (Hrun : IncidentsService.exportToCSV r
                 = (Returned (spec_header
                      ++ spec_lines (map spec_row (IdDescSort.sort (rows r)))),
                    r)).
  { rewrite exportToCSV_lines.
    now rewrite (map_ext data_line spec_row data_line_spec). }
  repeat split; try assumption; try reflexivity.
  - rewrite length_map. symmetry. now apply Permutation_length.
  - intros Hnil. rewrite Hrun, Hnil. reflexivity.
Qed.

Lemma exportToCSV_header_and_rows_witness :
  IncidentsService.exportToCSV (rt := UtcHost.runtime) (empty_repository 0)
  = (Returned
       "ID,Reported By,Assigned To,Date & Time,Description,Status,Closed On,Total Time",
     empty_repository 0).
Proof.
  destruct (exportToCSV_header_and_rows UtcHost.runtime (empty_repository 0))
    as (incidents & _ & _ & _ & _ & _ & Hempty).
  exact (Hempty eq_refl).
Defined.


(** C9.  The export starts with the header row: the 8 column names joined
    by commas, with no double quote anywhere in it.  Each record of the
    store follows on a line of its own, and that data row, in contrast, is
    8 fields joined by commas, each of which starts and ends with a double
    quote: the id, reportedBy, assignedTo, the date and time, description,
    status, the closing time or nothing, and the total time or nothing. *)
Theorem exportToCSV_header_unquoted :
  forall (rt : JS.Runtime) (r : Repository),
    exists incidents : list Incident,
      fst (IncidentsService.findAll r) = Returned incidents /\
      length incidents = length (rows r) /\
      fst (IncidentsService.exportToCSV r)
        = Returned (spec_header ++ spec_lines (map spec_row incidents)) /\
      spec_header = JS.join "," IncidentsService.headers /\
      length IncidentsService.headers = 8%nat /\
      occurrences dquote spec_header = 0%nat /\
      Forall (fun name => occurrences dquote name = 0%nat)
        IncidentsService.headers /\
      (forall inc,
         exists fields,
           fields
             = map (fun v => String dquote (v ++ String dquote ""))
                 [ JS.Z_toString (id inc); reportedBy inc; assignedTo inc;
                   JS.toLocaleString (dateTime inc); description inc;
                   status inc;
                   match closedOn inc with
                   | Some d => JS.toLocaleString d
                   | None => ""
                   end;
                   match totalTime inc with
                   | Some t => t
                   | None => ""
                   end ] /\
           length fields = 8%nat /\
           spec_row inc = JS.join "," fields /\
           JS.join "," (map IncidentsService.quoted
                          (IncidentsService.cells inc))
             = JS.join "," fields).
Proof.
  intros rt r. exists (IdDescSort.sort (rows r)).
  split; [reflexivity|].
  split; [symmetry; apply Permutation_length, IdDescSort.Permuted_sort|].
  split.
  { rewrite exportToCSV_lines. cbn [fst].
    now rewrite (map_ext data_line spec_row data_line_spec). }
  do 3 (split; [reflexivity|]).
  split; [repeat constructor|].
  intros inc. eexists. split; [reflexivity|].
  split; [reflexivity|]. split; [reflexivity|].
  change (data_line inc = spec_row inc). apply data_line_spec.
Qed.

(* ================================================================== *)
(** ** More on the update engine *)


Lemma overwrite_twice (inc' : Incident) (table : list Incident) :
  let ow := fun row => if id row =? id inc' then inc' else row in
  map ow (map ow table) = map ow table.
Proof.
  intros ow. rewrite map_map. apply map_ext. intros x. unfold ow.
  destruct (Z.eqb_spec (id x) (id inc')) as [E|E].
  - now rewrite Z.eqb_refl.
  - now destruct (Z.eqb_spec (id x) (id inc')).
Qed.

(** With distinct keys, saving a row as it stands changes nothing. *)
Lemma overwrite_same (i : Z) (inc : Incident) (table : list Incident) :
  NoDup (map id table) ->
  find (fun x => id x =? i) table = Some inc ->
  map (fun row => if id row =? id inc then inc else row) table = table.
Proof.
  induction table as [|x table IH]; simpl; intros Hnd Hf; [reflexivity|].
  apply NoDup_cons_iff in Hnd. destruct Hnd as [Hfresh Hnd].
  destruct (Z.eqb_spec (id x) i) as [E|E].
  - injection Hf as ->. rewrite Z.eqb_refl. f_equal.
    rewrite <- (map_id table) at 2. apply map_ext_in. intros y Hy.
    destruct (Z.eqb_spec (id y) (id inc)) as [E'|_]; [|reflexivity].
    exfalso. apply Hfresh. rewrite <- E'. now apply in_map.
  - pose proof (find_some _ _ Hf) as [_ Hid]. apply Z.eqb_eq in Hid.
    destruct (Z.eqb_spec (id x) (id inc)) as [E'|_]; [congruence|].
    f_equal. now apply IH.
Qed.

Section UpdateMore.
Context {rt : JS.Runtime}.

Lemma update_existing_store (r : Repository) (i : Z) (inc : Incident)
    (dto : UpdateIncidentDto.t) :
  persisted r i = Some inc ->
  IncidentsService.update i dto r
  = (Returned (IncidentsService.apply_update inc dto),
     mkRepository
       (map (fun row =>
               if id row =? id (IncidentsService.apply_update inc dto)
               then IncidentsService.apply_update inc dto else row)
          (rows r))
       (autoIncrement r) (clock r)).
Proof.
  intros H. unfold IncidentsService.update, bind, Repo.findOne, Repo.save.
  unfold persisted in H. now rewrite H.
Qed.

Lemma apply_update_twice (inc : Incident) (dto : UpdateIncidentDto.t) :
  IncidentsService.apply_update (IncidentsService.apply_update inc dto) dto
  = IncidentsService.apply_update inc dto.
Proof.
  unfold IncidentsService.apply_update.
  destruct (supplied (UpdateIncidentDto.status dto));
    destruct (supplied (UpdateIncidentDto.closedOn dto)); reflexivity.
Qed.

Lemma apply_update_nothing (inc : Incident) (dto : UpdateIncidentDto.t) :
  supplied (UpdateIncidentDto.status dto) = None ->
  supplied (UpdateIncidentDto.closedOn dto) = None ->
  IncidentsService.apply_update inc dto = inc.
Proof.
  intros Hs Hc. unfold IncidentsService.apply_update. now rewrite Hs, Hc.
Qed.

End UpdateMore.



(** X2.  [update] is idempotent: running the same update a second time
    returns what the first run returned and leaves the store the first run
    left, whether the id exists or not. *)
Theorem update_idempotent :
  forall (rt : JS.Runtime) (r : Repository) (i : Z)
         (dto : UpdateIncidentDto.t),
    IncidentsService.update i dto (snd (IncidentsService.update i dto r))
    = IncidentsService.update i dto r.
Proof.
  intros rt r i dto. destruct (persisted r i) as [inc|] eqn:Hp.
  - destruct (update_existing r i inc dto Hp) as (r' & Hrun & Hp').
    rewrite Hrun; simpl.
    rewrite (update_existing_store r' i _ dto Hp'), apply_update_twice.
    rewrite (update_existing_store r i inc dto Hp) in Hrun.
    injection Hrun as <-. simpl. now rewrite overwrite_twice.
  - rewrite (update_missing r i dto Hp); simpl.
    apply (update_missing r i dto Hp).
Qed.

(** X3.  An update that supplies neither a status nor a closedOn (absent,
    null or empty) returns the record as stored and, the keys being
    distinct, leaves the store exactly as it was. *)
Theorem update_nothing_supplied :
  forall (rt : JS.Runtime) (r : Repository) (i : Z) (inc : Incident)
         (dto : UpdateIncidentDto.t),
    wf r ->
    persisted r i = Some inc ->
    supplied (UpdateIncidentDto.status dto) = None ->
    supplied (UpdateIncidentDto.closedOn dto) = None ->
    IncidentsService.update i dto r = (Returned inc, r).
Proof.
  intros rt r i inc dto [Hnd _] Hp Hs Hc.
  rewrite (update_existing_store r i inc dto Hp).
  rewrite (apply_update_nothing inc dto Hs Hc).
  unfold persisted in Hp. rewrite (overwrite_same i inc (rows r) Hnd Hp).
  now rewrite repository_eta.
Qed.

Lemma update_nothing_supplied_witness :
  IncidentsService.update (rt := UtcHost.runtime) 1
    (UpdateIncidentDto.mk (Some "") None) store_2024
  = (Returned
       (mkIncident 1 "Asha" "Ravi" (JS.mkDate (JS.Int 1704067200000))
          "Printer on fire" None "Open" None None
          (JS.mkDate (JS.Int 1704067300000))),
     store_2024).
Proof.
  apply (update_nothing_supplied UtcHost.runtime store_2024 1).
  - split; repeat constructor; simpl; tauto.
  - reflexivity.
  - reflexivity.
  - reflexivity.
Defined.

(** X4.  A closedOn that is a non-empty string but no date, or a stored
    dateTime that is invalid, is not refused: the update returns and
    totalTime becomes "NaN hours". *)
Theorem update_invalid_date_NaN_hours :
  forall (rt : JS.Runtime) (r : Repository) (i : Z) (inc : Incident)
         (dto : UpdateIncidentDto.t) (c : string),
    persisted r i = Some inc ->
    UpdateIncidentDto.closedOn dto = Some c ->
    c <> "" ->
    JS.Date_parse c = JS.NaN \/ JS.getTime (dateTime inc) = JS.NaN ->
    exists inc' r',
      IncidentsService.update i dto r = (Returned inc', r') /\
      persisted r' i = Some inc' /\
      totalTime inc' = Some "NaN hours" /\
      closedOn inc' = Some (JS.mkDate (JS.Date_parse c)).
Proof.
  intros rt r i inc dto c Hp Hc Hne Hnan.
  destruct (update_existing r i inc dto Hp) as (r' & Hrun & Hp').
  exists (IncidentsService.apply_update inc dto), r'.
  split; [exact Hrun|]. split; [exact Hp'|].
  unfold IncidentsService.apply_update. rewrite Hc.
  assert (Hs : supplied (Some c) = Some c).
  { unfold supplied, JS.truthy. now destruct (String.eqb_spec c ""). }
  rewrite Hs.
  assert (He : forall start,
             JS.getTime start = JS.getTime (dateTime inc) ->
             IncidentsService.elapsed start (JS.Date_of_string c)
             = "NaN hours").
  { intros start Hstart. unfold IncidentsService.elapsed. rewrite Hstart.
    unfold JS.Date_of_string; cbn [JS.getTime].
    destruct Hnan as [H|H]; rewrite H;
      [|destruct (JS.Date_parse c)]; reflexivity. }
  destruct (supplied (UpdateIncidentDto.status dto)); simpl;
    (split; [f_equal; apply He; reflexivity | reflexivity]).
Qed.

Lemma update_invalid_date_NaN_hours_witness :
  exists inc' r',
    IncidentsService.update (rt := UtcHost.runtime) 1 (close_at "soon")
      store_2024 = (Returned inc', r') /\
    persisted r' 1 = Some inc' /\
    totalTime inc' = Some "NaN hours" /\
    closedOn inc' = Some (JS.mkDate JS.NaN).
Proof.
  refine (update_invalid_date_NaN_hours UtcHost.runtime store_2024 1
            (mkIncident 1 "Asha" "Ravi" (JS.mkDate (JS.Int 1704067200000))
               "Printer on fire" None "Open" None None
               (JS.mkDate (JS.Int 1704067300000)))
            (close_at "soon") "soon" eq_refl eq_refl _ (or_introl eq_refl)).
  discriminate.
Defined.

(* ================================================================== *)
(** ** Removal, creation and listing together *)

Lemma find_after_delete (i j : Z) (table : list Incident) :
  j <> i ->
  find (fun x => id x =? j) (filter (fun x => negb (id x =? i)) table)
  = find (fun x => id x =? j) table.
Proof.
  intros Hj. induction table as [|x table IH]; simpl; [reflexivity|].
  destruct (Z.eqb_spec (id x) i) as [E|_]; simpl.
  - destruct (Z.eqb_spec (id x) j) as [E'|_]; [congruence|exact IH].
  - now rewrite IH.
Qed.

Lemma find_none_after_delete (i : Z) (table : list Incident) :
  find (fun x => id x =? i) (filter (fun x => negb (id x =? i)) table) = None.
Proof.
  induction table as [|x table IH]; simpl; [reflexivity|].
  destruct (id x =? i) eqn:E; simpl; [exact IH|now rewrite E].
Qed.

(** With distinct keys, deleting an existing key takes one row away. *)
Lemma delete_one (i : Z) (inc : Incident) (table : list Incident) :
  NoDup (map id table) ->
  find (fun x => id x =? i) table = Some inc ->
  S (length (filter (fun x => negb (id x =? i)) table)) = length table.
Proof.
  induction table as [|x table IH]; simpl; intros Hnd Hf; [discriminate|].
  apply NoDup_cons_iff in Hnd. destruct Hnd as [Hfresh Hnd].
  destruct (Z.eqb_spec (id x) i) as [E|_]; simpl.
  - f_equal. f_equal. apply filter_none_found.
    destruct (find (fun y => id y =? i) table) as [y|] eqn:Ey; [|reflexivity].
    apply find_some in Ey. destruct Ey as [Hin Hy]. apply Z.eqb_eq in Hy.
    exfalso. apply Hfresh. rewrite E, <- Hy. now apply in_map.
  - f_equal. now apply IH.
Qed.

Lemma delete_appended (inc : Incident) (table : list Incident) :
  Forall (fun x => id x < id inc) table ->
  filter (fun x => negb (id x =? id inc)) (table ++ [inc]) = table.
Proof.
  intros H. rewrite filter_app; simpl. rewrite Z.eqb_refl; simpl.
  rewrite app_nil_r. induction H as [|x table Hx _ IH]; simpl; [reflexivity|].
  destruct (Z.eqb_spec (id x) (id inc)); [lia|]. simpl. now rewrite IH.
Qed.

Lemma find_before_appended (j : Z) (inc : Incident) (table : list Incident) :
  j <> id inc ->
  find (fun x => id x =? j) (table ++ [inc]) = find (fun x => id x =? j) table.
Proof.
  intros Hj. induction table as [|x table IH]; simpl.
  - now destruct (Z.eqb_spec (id inc) j); [congruence|].
  - now rewrite IH.
Qed.

Lemma IdDesc_transitive :
  Relations_1.Transitive (fun a b => IdDesc.leb a b = true).
Proof.
  intros a b c Hab Hbc. unfold IdDesc.leb in *.
  apply Z.leb_le in Hab, Hbc. apply Z.leb_le. lia.
Qed.

Lemma sort_descending (table : list Incident) :
  StronglySorted (fun a b => id b <= id a) (IdDescSort.sort table).
Proof.
  pose proof (IdDescSort.StronglySorted_sort table IdDesc_transitive) as H.
  induction H as [|a l _ IH Hall]; constructor; [exact IH|].
  eapply Forall_impl; [|exact Hall].
  intros b Hb. unfold IdDesc.leb in Hb. now apply Z.leb_le.
Qed.

(** The row with the largest key comes first in the listing. *)
Lemma sort_appended_largest (inc : Incident) (table : list Incident) :
  Forall (fun x => id x < id inc) table ->
  exists rest,
    IdDescSort.sort (table ++ [inc]) = inc :: rest /\
    Permutation table rest /\
    StronglySorted (fun a b => id b <= id a) rest.
Proof.
  intros Hlt.
  pose proof (IdDescSort.Permuted_sort (table ++ [inc])) as Hperm.
  pose proof (sort_descending (table ++ [inc])) as Hsorted.
  destruct (IdDescSort.sort (table ++ [inc])) as [|x rest] eqn:E.
  - apply Permutation_length in Hperm. rewrite length_app in Hperm.
    simpl in Hperm. lia.
  - inversion Hsorted as [|? ? Hrest Hall]; subst.
    assert (Hx : In x (table ++ [inc]))
      by (eapply Permutation_in; [symmetry; exact Hperm|now left]).
    assert (Hinc : In inc (x :: rest))
      by (eapply Permutation_in; [exact Hperm|];
          apply in_or_app; right; now left).
    assert (Ex : x = inc).
    { apply in_app_or in Hx. destruct Hx as [Hx|[Hx|[]]]; [|now symmetry].
      rewrite Forall_forall in Hlt. specialize (Hlt x Hx).
      destruct Hinc as [Hinc|Hinc]; [now symmetry|].
      rewrite Forall_forall in Hall. specialize (Hall inc Hinc). lia. }
    subst x. exists rest. repeat split; [|exact Hrest].
    apply Permutation_cons_inv with (a := inc).
    etransitivity; [|exact Hperm]. apply Permutation_cons_append.
Qed.

(** X5.  [remove] of an existing id returns, takes that record out and
    no other: the id references nothing afterwards, every other id
    references what it did, and with distinct keys exactly one row is
    reported affected and the table is one row shorter. *)
Theorem remove_takes_out_one_record :
  forall (r : Repository) (i : Z) (inc : Incident),
    wf r ->
    persisted r i = Some inc ->
    exists r',
      IncidentsService.remove i r
        = (Returned (Repo.mkDeleteResult 1), r') /\
      persisted r' i = None /\
      (forall j, j <> i -> persisted r' j = persisted r j) /\
      S (length (rows r')) = length (rows r) /\
      autoIncrement r' = autoIncrement r.
Proof.
  intros r i inc [Hnd _] Hp. unfold persisted in Hp.
  pose proof (delete_one i inc (rows r) Hnd Hp) as Hlen.
  unfold IncidentsService.remove, bind, Repo.delete; simpl.
  replace (Z.of_nat (length (rows r))
           - Z.of_nat (length (filter (fun x => negb (id x =? i)) (rows r))))
    with 1 by lia.
  simpl. eexists; split; [reflexivity|]. unfold persisted; simpl.
  repeat split.
  - apply find_none_after_delete.
  - intros j Hj. now apply find_after_delete.
  - exact Hlen.
Qed.

Lemma remove_takes_out_one_record_witness :
  exists r',
    IncidentsService.remove 1 store_2024
      = (Returned (Repo.mkDeleteResult 1), r') /\
    persisted r' 1 = None /\
    S (length (rows r')) = 1%nat.
Proof.
  destruct (remove_takes_out_one_record store_2024 1
              (mkIncident 1 "Asha" "Ravi" (JS.mkDate (JS.Int 1704067200000))
                 "Printer on fire" None "Open" None None
                 (JS.mkDate (JS.Int 1704067300000))))
    as (r' & Hrun & Hgone & _ & Hlen & _).
  - split; repeat constructor; simpl; tauto.
  - reflexivity.
  - exists r'. repeat split; assumption.
Defined.

(** X6.  After [remove] of an id, whether it returned or threw, the id
    references nothing: a second [remove] of it throws NotFound, and so
    does an [update] of it. *)
Theorem remove_then_not_found :
  forall (rt : JS.Runtime) (r : Repository) (i : Z)
         (dto : UpdateIncidentDto.t),
    let r' := snd (IncidentsService.remove i r) in
    persisted r' i = None /\
    fst (IncidentsService.remove i r')
      = Thrown (NotFoundException (IncidentsService.not_found_message i)) /\
    fst (IncidentsService.update i dto r')
      = Thrown (NotFoundException (IncidentsService.not_found_message i)).
Proof.
  intros rt r i dto r'.
  assert (Hgone : persisted r' i = None).
  { unfold r', IncidentsService.remove, bind, Repo.delete; simpl.
    destruct (Z.of_nat (length (rows r))
              - Z.of_nat
                  (length (filter (fun x => negb (id x =? i)) (rows r))) =? 0);
      apply find_none_after_delete. }
  split; [exact Hgone|].
  now rewrite (remove_missing r' i Hgone), (update_missing r' i dto Hgone).
Qed.

(** X7.  [create] adds one record and touches no other: every id but the
    new one references what it did.  With the keys below the next key,
    removing the new id again gives back the rows there were, in their
    order. *)
Theorem create_then_remove_restores_rows :
  forall (rt : JS.Runtime) (r : Repository) (dto : CreateIncidentDto.t),
    wf r ->
    exists inc r',
      IncidentsService.create dto r = (Returned inc, r') /\
      (forall j, j <> id inc -> persisted r' j = persisted r j) /\
      length (rows r') = S (length (rows r)) /\
      rows (snd (IncidentsService.remove (id inc) r')) = rows r /\
      fst (IncidentsService.remove (id inc) r')
        = Returned (Repo.mkDeleteResult 1).
Proof.
  intros rt r dto [_ Hlt].
  unfold IncidentsService.create, Repo.insert.
  eexists; eexists; split; [reflexivity|].
  set (inc := mkIncident (autoIncrement r) _ _ _ _ _ _ _ _ _).
  assert (Hdel : filter (fun x => negb (id x =? id inc)) (rows r ++ [inc])
                 = rows r) by (apply delete_appended; exact Hlt).
  split; [|split].
  - intros j Hj. unfold persisted; cbn [rows].
    now apply find_before_appended.
  - cbn [rows]. rewrite length_app; simpl. lia.
  - unfold IncidentsService.remove, bind, Repo.delete; cbn [rows].
    rewrite Hdel, length_app; cbn [length].
    replace (Z.of_nat (length (rows r) + 1) - Z.of_nat (length (rows r)))
      with 1 by lia.
    split; reflexivity.
Qed.

Lemma create_then_remove_restores_rows_witness :
  exists inc r',
    IncidentsService.create (rt := UtcHost.runtime) report_quote store_2024
      = (Returned inc, r') /\
    rows (snd (IncidentsService.remove (id inc) r')) = rows store_2024.
Proof.
  destruct (create_then_remove_restores_rows UtcHost.runtime store_2024
              report_quote)
    as (inc & r' & Hrun & _ & _ & Hrows & _).
  - split; repeat constructor; simpl; tauto.
  - exists inc, r'. split; assumption.
Defined.

(** X8.  [findAll] returns every record of the store once, ordered by id
    from the largest to the smallest, and leaves the store alone. *)
Theorem findAll_descending_permutation :
  forall (r : Repository),
    exists incidents,
      IncidentsService.findAll r = (Returned incidents, r) /\
      Permutation (rows r) incidents /\
      StronglySorted (fun a b => id b <= id a) incidents.
Proof.
  intros r. exists (IdDescSort.sort (rows r)).
  split; [reflexivity|]. split.
  - apply IdDescSort.Permuted_sort.
  - apply sort_descending.
Qed.

(** X9.  A record just created heads the listing and is the first data
    row of the export, the records there were following it. *)
Theorem created_record_listed_first :
  forall (rt : JS.Runtime) (r : Repository) (dto : CreateIncidentDto.t),
    wf r ->
    exists inc r' rest,
      IncidentsService.create dto r = (Returned inc, r') /\
      IncidentsService.findAll r' = (Returned (inc :: rest), r') /\
      Permutation (rows r) rest /\
      StronglySorted (fun a b => id b <= id a) rest /\
      IncidentsService.exportToCSV r'
        = (Returned (spec_header ++ JS.LF ++ spec_row inc
                     ++ spec_lines (map spec_row rest)), r').
Proof.
  intros rt r dto [_ Hlt].
  unfold IncidentsService.create, Repo.insert.
  set (inc := mkIncident (autoIncrement r) _ _ _ _ _ _ _ _ _).
  destruct (sort_appended_largest inc (rows r) Hlt) as (rest & Hs & Hp & Hsd).
  exists inc. eexists. exists rest. split; [reflexivity|].
  split; [|split; [exact Hp|split; [exact Hsd|]]].
  - unfold IncidentsService.findAll, Repo.find_desc; cbn [rows].
    now rewrite Hs.
  - rewrite exportToCSV_lines; cbn [rows]. rewrite Hs.
    rewrite (map_ext data_line spec_row data_line_spec). reflexivity.
Qed.

Lemma created_record_listed_first_witness :
  exists inc r' rest,
    IncidentsService.create (rt := UtcHost.runtime) report_quote store_2024
      = (Returned inc, r') /\
    IncidentsService.findAll r' = (Returned (inc :: rest), r') /\
    Permutation (rows store_2024) rest.
Proof.
  destruct (created_record_listed_first UtcHost.runtime store_2024
              report_quote)
    as (inc & r' & rest & Hrun & Hall & Hperm & _).
  - split; repeat constructor; simpl; tauto.
  - exists inc, r', rest. repeat split; assumption.
Defined.

(** X10.  In every store the service can bring about from a fresh
    database, by any sequence of create, list, update, delete and export,
    the ids are pairwise distinct and below the next generated key. *)
Theorem reachable_keys_distinct :
  forall (rt : JS.Runtime) (r : Repository),
    reachable r ->
    NoDup (map id (rows r)) /\
    Forall (fun inc => 1 <= id inc < autoIncrement r) (rows r).
Proof.
  intros rt r H.
  assert (Hlow : Forall (fun inc => 1 <= id inc) (rows r) /\
                 1 <= autoIncrement r).
  { induction H as [now|op r _ [IH1 IH2]]; [split; [constructor|simpl; lia]|].
    destruct op as [dto| |i dto|i|]; simpl; try (split; assumption).
    - split; [|lia]. apply Forall_app; split; [exact IH1|].
      repeat constructor; simpl; lia.
    - unfold IncidentsService.update, bind, Repo.findOne.
      destruct (find (fun inc => id inc =? i) (rows r)) as [inc|] eqn:E;
        simpl; [|split; assumption].
      split; [|exact IH2]. rewrite Forall_forall in *. intros x Hin.
      apply in_map_iff in Hin. destruct Hin as (y & Hy & Hin).
      destruct (Z.eqb_spec (id y) (id (IncidentsService.apply_update inc dto)))
        as [Eid|_]; subst x; [rewrite <- Eid|]; now apply IH1.
    - unfold IncidentsService.remove, bind, Repo.delete; simpl.
      assert (Hk : Forall (fun inc => 1 <= id inc)
                     (filter (fun x => negb (id x =? i)) (rows r))).
      { rewrite Forall_forall in *. intros x Hin.
        apply filter_In in Hin. now apply IH1. }
      now destruct (Z.of_nat (length (rows r))
                    - Z.of_nat
                        (length (filter (fun x => negb (id x =? i)) (rows r)))
                    =? 0). }
  destruct (reachable_wf r H) as [Hnd Hlt]. split; [exact Hnd|].
  destruct Hlow as [Hlow _]. rewrite Forall_forall in *.
  intros x Hin. split; [now apply Hlow|now apply Hlt].
Qed.

Lemma reachable_keys_distinct_witness :
  NoDup (map id (rows store_quote)) /\
  Forall (fun inc => 1 <= id inc < autoIncrement store_quote)
    (rows store_quote).
Proof.
  apply (reachable_keys_distinct UtcHost.runtime store_quote).
  exact (reachable_run (OpCreate report_quote) (empty_repository 0)
           (reachable_fresh 0)).
Defined.

(* ================================================================== *)
(** ** What the missing escaping costs *)

Lemma spec_field_quotes (v : string) :
  spec_field v = JS.DQUOTE ++ v ++ JS.DQUOTE.
Proof. reflexivity. Qed.

Lemma occurrences_quoted (c : ascii) (v : string) :
  occurrences c (IncidentsService.quoted v)
  = (occurrences c v + 2 * (if Ascii.eqb c dquote then 1 else 0))%nat.
Proof.
  change (IncidentsService.quoted v)
    with (String dquote (v ++ String dquote "")).
  cbn [occurrences]. rewrite occurrences_append. cbn [occurrences].
  destruct (Ascii.eqb c dquote); lia.
Qed.

(** A character other than the comma occurs in a data row as often as in
    its cells, the two quotes around each cell added. *)
Lemma occurrences_row (c : ascii) (cells : list string) :
  Ascii.eqb c "," = false ->
  occurrences c (JS.join "," (map IncidentsService.quoted cells))
  = (list_sum (map (occurrences c) cells)
     + 2 * length cells * (if Ascii.eqb c dquote then 1 else 0))%nat.
Proof.
  intros Hc. induction cells as [|x cells IH]; [reflexivity|].
  destruct cells as [|y cells].
  - cbn [map JS.join list_sum fold_right length].
    rewrite occurrences_quoted. lia.
  - change (JS.join "," (map IncidentsService.quoted (x :: y :: cells)))
      with (IncidentsService.quoted x ++ ","
            ++ JS.join "," (map IncidentsService.quoted (y :: cells))).
    rewrite occurrences_append, occurrences_append, occurrences_quoted, IH.
    cbn [occurrences]. rewrite Hc.
    change (list_sum (map (occurrences c) (x :: y :: cells)))
      with (occurrences c x + list_sum (map (occurrences c) (y :: cells)))%nat.
    change (length (x :: y :: cells)) with (S (length (y :: cells))).
    destruct (Ascii.eqb c dquote); lia.
Qed.

Section Escaping.
Context {rt : JS.Runtime}.

Lemma occurrences_lines (c : ascii) (incidents : list Incident) :
  Ascii.eqb c "," = false ->
  occurrences c (spec_lines (map data_line incidents))
  = (length incidents * occurrences c JS.LF
     + occurrences_in_cells c incidents
     + 16 * length incidents * (if Ascii.eqb c dquote then 1 else 0))%nat.
Proof.
  intros Hc. induction incidents as [|inc incidents IH]; [reflexivity|].
  cbn [map spec_lines]. rewrite !occurrences_append, IH.
  unfold data_line at 1. rewrite (occurrences_row c _ Hc).
  unfold occurrences_in_cells; cbn [map length].
  change (list_sum (?x :: ?l)) with (x + list_sum l)%nat.
  change (length (IncidentsService.cells inc)) with 8%nat.
  destruct (Ascii.eqb c dquote); lia.
Qed.

End Escaping.

(** X11.  Every line feed of the export is one of the N row separators or
    comes out of a cell, and every double quote is one of the 16 around the
    fields of a row or comes out of a cell: the text has N line feeds and
    16 N double quotes exactly when no cell holds any. *)
Theorem exportToCSV_line_feeds_and_quotes :
  forall (rt : JS.Runtime) (r : Repository),
    exists incidents text,
      IncidentsService.findAll r = (Returned incidents, r) /\
      IncidentsService.exportToCSV r = (Returned text, r) /\
      occurrences (ascii_of_nat 10) text
        = (length (rows r)
           + occurrences_in_cells (ascii_of_nat 10) incidents)%nat /\
      occurrences dquote text
        = (16 * length (rows r) + occurrences_in_cells dquote incidents)%nat.
Proof.
  intros rt r. exists (IdDescSort.sort (rows r)). eexists.
  split; [reflexivity|]. split; [apply exportToCSV_lines|].
  assert (Hlen : length (IdDescSort.sort (rows r)) = length (rows r))
    by (symmetry; apply Permutation_length, IdDescSort.Permuted_sort).
  rewrite !occurrences_append, !occurrences_lines by reflexivity.
  rewrite Hlen. split.
  - change (occurrences (ascii_of_nat 10) spec_header) with 0%nat.
    change (occurrences (ascii_of_nat 10) JS.LF) with 1%nat.
    change (Ascii.eqb (ascii_of_nat 10) dquote) with false.
    cbv iota. lia.
  - change (occurrences dquote spec_header) with 0%nat.
    change (occurrences dquote JS.LF) with 0%nat.
    change (Ascii.eqb dquote dquote) with true.
    cbv iota. lia.
Qed.

(** X12.  The rows do not keep the fields apart.  Let the field break be
    the three characters quote, comma, quote.  A record whose reportedBy is
    a, the field break, b and whose assignedTo is c exports as the very row
    of the record whose reportedBy is a and whose assignedTo is b, the field
    break, c, though the two records differ. *)
Theorem exportToCSV_rows_ambiguous :
  forall (rt : JS.Runtime) (inc : Incident) (a b c : string),
    let first :=
      mkIncident (id inc) (a ++ field_break ++ b) c (dateTime inc)
        (description inc) (attachment inc) (status inc) (closedOn inc)
        (totalTime inc) (createdAt inc) in
    let second :=
      mkIncident (id inc) a (b ++ field_break ++ c) (dateTime inc)
        (description inc) (attachment inc) (status inc) (closedOn inc)
        (totalTime inc) (createdAt inc) in
    first <> second /\
    JS.join "," (map IncidentsService.quoted (IncidentsService.cells first))
    = JS.join "," (map IncidentsService.quoted (IncidentsService.cells second)).
Proof.
  intros rt inc a b c first second. split.
  - intros E. apply (f_equal reportedBy) in E.
    unfold first, second in E. cbn [reportedBy] in E.
    apply (f_equal String.length) in E.
    rewrite !length_append in E.
    change (String.length field_break) with 3%nat in E. lia.
  - change (data_line first = data_line second).
    rewrite !data_line_spec. unfold spec_row, first, second.
    cbn [id reportedBy assignedTo dateTime description status closedOn
         totalTime].
    rewrite !spec_field_quotes. unfold field_break.
    rewrite !append_assoc. reflexivity.
Qed.

(* ================================================================== *)
(** ** Uploads *)

Lemma digits_no_dash (d : Decimal.uint) :
  occurrences dash (NilEmpty.string_of_uint d) = 0%nat.
Proof. induction d; simpl; auto. Qed.

Lemma Z_toString_no_dash (n : Z) :
  0 <= n -> occurrences dash (JS.Z_toString n) = 0%nat.
Proof.
  intros Hn. unfold JS.Z_toString. destruct n as [|p|p]; [reflexivity| |lia].
  simpl. unfold NilZero.string_of_uint.
  pose proof (digits_no_dash (Pos.to_uint p)) as H.
  now destruct (Pos.to_uint p).
Qed.

Lemma Z_toString_inj (n n' : Z) :
  JS.Z_toString n = JS.Z_toString n' -> n = n'.
Proof.
  unfold JS.Z_toString. intros E.
  assert (Hnn : forall z, Z.to_int z <> Decimal.Pos Decimal.Nil /\
                          Z.to_int z <> Decimal.Neg Decimal.Nil).
  { intros [|p|p]; simpl; split; try discriminate;
      intros [= H]; exact (DecimalPos.Unsigned.to_uint_nonnil p H). }
  apply (f_equal NilZero.int_of_string) in E.
  destruct (Hnn n) as [H1 H2]. destruct (Hnn n') as [H1' H2'].
  rewrite !NilZero.isi in E by assumption.
  injection E as E. now apply DecimalZ.to_int_inj.
Qed.

(** Two texts cut at their first dash agree part by part. *)
Lemma split_at_dash (a a' x x' : string) :
  occurrences dash a = 0%nat ->
  occurrences dash a' = 0%nat ->
  a ++ "-" ++ x = a' ++ "-" ++ x' ->
  a = a' /\ x = x'.
Proof.
  revert a'. induction a as [|ch a IH]; intros [|ch' a'] Ha Ha' E.
  - simpl in E. injection E as E. now split.
  - simpl in E. injection E as Ech _. subst ch'.
    simpl in Ha'. discriminate.
  - simpl in E. injection E as Ech _. subst ch.
    simpl in Ha. discriminate.
  - simpl in E. injection E as Ech E. subst ch'.
    simpl in Ha, Ha'.
    destruct (IH a') as [-> ->]; [lia|lia|exact E|now split].
Qed.

(** The stored name determines the clock reading, the random number and
    the original name it was made of. *)
Lemma storedName_inj (now rnd now' rnd' : Z) (original original' : string) :
  0 <= now -> 0 <= rnd -> 0 <= now' -> 0 <= rnd' ->
  IncidentsController.storedName now rnd original
  = IncidentsController.storedName now' rnd' original' ->
  now = now' /\ rnd = rnd' /\ original = original'.
Proof.
  intros Hn Hr Hn' Hr' E. unfold IncidentsController.storedName in E.
  rewrite !append_assoc in E.
  apply split_at_dash in E; try now apply Z_toString_no_dash.
  destruct E as [E1 E2].
  apply split_at_dash in E2; try now apply Z_toString_no_dash.
  destruct E2 as [E2 E3].
  apply Z_toString_inj in E1, E2. auto.
Qed.

(** X13.  Two uploads never get the same stored name unless they agree in
    the clock reading, the random number and the original name: the name
    the storage engine makes determines all three. *)
Theorem storedName_distinct :
  forall (now rnd now' rnd' : Z) (original original' : string),
    0 <= now -> 0 <= rnd -> 0 <= now' -> 0 <= rnd' ->
    (now, rnd, original) <> (now', rnd', original') ->
    IncidentsController.storedName now rnd original
    <> IncidentsController.storedName now' rnd' original'.
Proof.
  intros now rnd now' rnd' original original' Hn Hr Hn' Hr' Hne E.
  apply Hne.
  destruct (storedName_inj _ _ _ _ _ _ Hn Hr Hn' Hr' E) as (-> & -> & ->).
  reflexivity.
Qed.

Lemma storedName_distinct_witness :
  IncidentsController.storedName 1704067200000 17 "photo.png"
  <> IncidentsController.storedName 1704067200000 18 "photo.png".
Proof.
  apply storedName_distinct; try lia. intros [=].
Defined.

(** X14.  Through the controller an upload decides the attachment of the
    created record, whatever the body said, and without an upload the
    attachment is what the body said.  Two incidents created one after the
    other with uploads that differ in clock reading, random number or
    original name get different ids and different attachments. *)
Theorem controller_uploads_kept_apart :
  forall (rt : JS.Runtime) (r : Repository) (dto dto' : CreateIncidentDto.t)
         (now rnd now' rnd' : Z) (original original' : string),
    0 <= now -> 0 <= rnd -> 0 <= now' -> 0 <= rnd' ->
    (now, rnd, original) <> (now', rnd', original') ->
    exists inc r1 inc' r2 plain r3,
      IncidentsController.create dto
        (Some (IncidentsController.upload now rnd original)) r
        = (Returned inc, r1) /\
      IncidentsController.create dto'
        (Some (IncidentsController.upload now' rnd' original')) r1
        = (Returned inc', r2) /\
      IncidentsController.create dto None r = (Returned plain, r3) /\
      attachment inc
        = Some (IncidentsController.storedName now rnd original) /\
      attachment inc'
        = Some (IncidentsController.storedName now' rnd' original') /\
      attachment plain = CreateIncidentDto.attachment dto /\
      attachment inc <> attachment inc' /\
      id inc <> id inc'.
Proof.
  intros rt r dto dto' now rnd now' rnd' original original'
    Hn Hr Hn' Hr' Hne.
  unfold IncidentsController.create, IncidentsService.create, Repo.insert.
  do 6 eexists. split; [reflexivity|]. split; [reflexivity|].
  split; [reflexivity|]. cbn [attachment id autoIncrement
    CreateIncidentDto.attachment IncidentsController.filename
    IncidentsController.upload].
  repeat split.
  - intros [= E]. apply Hne.
    destruct (storedName_inj _ _ _ _ _ _ Hn Hr Hn' Hr' E) as (-> & -> & ->).
    reflexivity.
  - lia.
Qed.

Lemma controller_uploads_kept_apart_witness :
  exists inc r1 inc' r2,
    IncidentsController.create (rt := UtcHost.runtime) report_2024
      (Some (IncidentsController.upload 1704067200000 17 "photo.png"))
      (empty_repository 0) = (Returned inc, r1) /\
    IncidentsController.create (rt := UtcHost.runtime) report_2024
      (Some (IncidentsController.upload 1704067200000 18 "photo.png")) r1
      = (Returned inc', r2) /\
    attachment inc = Some "1704067200000-17-photo.png" /\
    attachment inc' = Some "1704067200000-18-photo.png" /\
    id inc <> id inc'.
Proof.
  destruct (controller_uploads_kept_apart UtcHost.runtime (empty_repository 0)
              report_2024 report_2024 1704067200000 17 1704067200000 18
              "photo.png" "photo.png")
    as (inc & r1 & inc' & r2 & _ & _ & H1 & H2 & _ & Ha & Ha' & _ & _ & Hid);
    try lia.
  - intros [=].
  - exists inc, r1, inc', r2. repeat split; assumption.
Defined.

(* ================================================================== *)
(** ** The edit form and the update engine together *)

Section EditFormFacts.
Context {browser : JS.Runtime}.
Variable toISOString : Z -> string.

Lemma isClosed_spec (s : string) :
  EditForm.isClosed s = true <-> s = "Closed".
Proof. unfold EditForm.isClosed. apply String.eqb_eq. Qed.

Lemma updateData_not_closed (e : EditForm.EditData) :
  EditForm.status e <> "Closed" ->
  EditForm.updateData toISOString e
  = Some (UpdateIncidentDto.mk (Some (EditForm.status e)) None).
Proof.
  intros H. unfold EditForm.updateData.
  destruct (EditForm.isClosed (EditForm.status e)) eqn:E; [|reflexivity].
  apply isClosed_spec in E. contradiction.
Qed.

Lemma updateData_closed (e : EditForm.EditData) (t : Z) :
  EditForm.status e = "Closed" ->
  JS.Date_parse (EditForm.closedOn e) = JS.Int t ->
  EditForm.updateData toISOString e
  = Some (UpdateIncidentDto.mk (Some "Closed") (Some (toISOString t))).
Proof.
  intros Hs Ht. unfold EditForm.updateData, EditForm.isoOf, JS.truthy.
  rewrite Hs. cbn [EditForm.isClosed String.eqb Ascii.eqb Bool.eqb andb].
  destruct (String.eqb_spec (EditForm.closedOn e) "") as [E|_];
    cbn [negb].
  - rewrite E, JS.Date_parse_empty in Ht. discriminate.
  - unfold JS.Date_of_string; cbn [JS.getTime]. now rewrite Ht.
Qed.

End EditFormFacts.

(** X15.  What the edit form sends always carries the status of the form
    as it is, whatever text that is, and carries a closedOn only when that
    status is exactly Closed; with any other status the closedOn sent is
    null.  When the Update button is enabled and the status is Closed,
    either the closedOn of the form is a date and its ISO text is sent, or
    building the request throws and nothing is sent. *)
Theorem editForm_request_shape :
  forall (browser : JS.Runtime) (toISOString : Z -> string)
         (e : EditForm.EditData),
    (forall dto,
       EditForm.updateData toISOString e = Some dto ->
       UpdateIncidentDto.status dto = Some (EditForm.status e) /\
       (UpdateIncidentDto.closedOn dto <> None ->
        EditForm.status e = "Closed")) /\
    (EditForm.status e <> "Closed" ->
     EditForm.updateData toISOString e
     = Some (UpdateIncidentDto.mk (Some (EditForm.status e)) None)) /\
    (EditForm.updateDisabled false e = false ->
     EditForm.status e = "Closed" ->
     match JS.Date_parse (EditForm.closedOn e) with
     | JS.Int t =>
         EditForm.updateData toISOString e
         = Some (UpdateIncidentDto.mk (Some "Closed") (Some (toISOString t)))
     | JS.NaN => EditForm.updateData toISOString e = None
     end).
Proof.
  intros browser toISOString e. split; [|split].
  - intros dto H. unfold EditForm.updateData in H.
    destruct (EditForm.isClosed (EditForm.status e)
              && JS.truthy (EditForm.closedOn e)) eqn:Hc.
    + apply andb_prop in Hc. destruct Hc as [Hc _].
      apply isClosed_spec in Hc.
      destruct (EditForm.isoOf toISOString (EditForm.closedOn e));
        [|discriminate].
      injection H as <-. split; [reflexivity|]. intros _. exact Hc.
    + injection H as <-. split; [reflexivity|]. intros Hn.
      now contradiction Hn.
  - apply updateData_not_closed.
  - intros Hen Hs. unfold EditForm.updateDisabled in Hen.
    assert (Hcl : EditForm.isClosed (EditForm.status e) = true)
      by now apply isClosed_spec.
    rewrite Hcl in Hen. cbn [orb andb] in Hen. apply negb_false_iff in Hen.
    destruct (JS.Date_parse (EditForm.closedOn e)) as [|t] eqn:Hp.
    + unfold EditForm.updateData, EditForm.isoOf, JS.Date_of_string.
      cbn [JS.getTime]. now rewrite Hcl, Hen, Hp.
    + now apply updateData_closed.
Qed.

Lemma editForm_request_shape_witness :
  EditForm.updateData (browser := UtcHost.runtime) UtcText.toISOString
    (EditForm.mkEditData "Closed" "2024-01-02T05:00")
  = Some (UpdateIncidentDto.mk (Some "Closed")
            (Some "2024-01-02T05:00:00.000Z")).
Proof.
  exact (proj2 (proj2 (editForm_request_shape UtcHost.runtime
                         UtcText.toISOString
                         (EditForm.mkEditData "Closed" "2024-01-02T05:00")))
           eq_refl eq_refl).
Defined.

(** X16.  An edit whose status is not Closed (Open, In Progress or any
    other text), applied by the update engine, leaves closedOn and
    totalTime of the record as they were and, unless it is empty, sets that
    status: reopening a closed incident keeps its closing time and its
    total time. *)
Theorem editForm_reopen_keeps_closing :
  forall (browser rt : JS.Runtime) (toISOString : Z -> string)
         (r : Repository) (i : Z) (inc : Incident) (e : EditForm.EditData),
    persisted r i = Some inc ->
    EditForm.status e <> "Closed" ->
    exists dto inc' r',
      EditForm.updateData (browser := browser) toISOString e = Some dto /\
      IncidentsService.update i dto r = (Returned inc', r') /\
      persisted r' i = Some inc' /\
      (EditForm.status e <> "" -> status inc' = EditForm.status e) /\
      (EditForm.status e = "Open" -> status inc' = "Open") /\
      (EditForm.status e = "In Progress" -> status inc' = "In Progress") /\
      closedOn inc' = closedOn inc /\
      totalTime inc' = totalTime inc.
Proof.
  intros browser rt toISOString r i inc e Hp Hs.
  set (dto := UpdateIncidentDto.mk (Some (EditForm.status e)) None).
  destruct (update_existing r i inc dto Hp) as (r' & Hrun & Hp').
  exists dto, (IncidentsService.apply_update inc dto), r'.
  split; [now apply updateData_not_closed|].
  split; [exact Hrun|]. split; [exact Hp'|].
  assert (Hset : EditForm.status e <> "" ->
                 status (IncidentsService.apply_update inc dto)
                 = EditForm.status e).
  { intros Hne. rewrite apply_update_status.
    unfold dto; cbn [UpdateIncidentDto.status]. unfold supplied, JS.truthy.
    now destruct (String.eqb_spec (EditForm.status e) ""). }
  split; [exact Hset|].
  split; [intros E; rewrite <- E; apply Hset; rewrite E; discriminate|].
  split; [intros E; rewrite <- E; apply Hset; rewrite E; discriminate|].
  now apply apply_update_frame.
Qed.

Lemma editForm_reopen_keeps_closing_witness :
  exists dto inc' r',
    EditForm.updateData (browser := UtcHost.runtime) UtcText.toISOString
      (EditForm.mkEditData "Open" "2024-01-02T05:00") = Some dto /\
    IncidentsService.update (rt := UtcHost.runtime) 1 dto
      (snd (IncidentsService.update (rt := UtcHost.runtime) 1
              (close_at "2024-01-02T05:00:00") store_2024))
      = (Returned inc', r') /\
    persisted r' 1 = Some inc' /\
    status inc' = "Open" /\
    closedOn inc' = Some (JS.mkDate (JS.Int 1704171600000)) /\
    totalTime inc' = Some "1 days".
Proof.
  destruct (editForm_reopen_keeps_closing UtcHost.runtime UtcHost.runtime
              UtcText.toISOString
              (snd (IncidentsService.update (rt := UtcHost.runtime) 1
                      (close_at "2024-01-02T05:00:00") store_2024))
              1
              (mkIncident 1 "Asha" "Ravi"
                 (JS.mkDate (JS.Int 1704067200000))
                 "Printer on fire" None "Closed"
                 (Some (JS.mkDate (JS.Int 1704171600000))) (Some "1 days")
                 (JS.mkDate (JS.Int 1704067300000)))
              (EditForm.mkEditData "Open" "2024-01-02T05:00")
              eq_refl)
    as (dto & inc' & r' & Hd & Hrun & Hp & _ & Hopen & _ & Hc & Ht).
  - discriminate.
  - exists dto, inc', r'. repeat split; try assumption.
    exact (Hopen eq_refl).
Defined.

(** X17.  An edit whose status is Closed and whose closedOn the browser
    reads as the time value t, less than 2^53 milliseconds away from the
    dateTime of the record, applied by the update engine of a server that
    reads the ISO text of t as t again, leaves the record Closed with
    closedOn t and with the total time of the elapsed whole hours from its
    dateTime to t. *)
Theorem editForm_close_sets_total_time :
  forall (browser rt : JS.Runtime) (toISOString : Z -> string)
         (r : Repository) (i : Z) (inc : Incident) (e : EditForm.EditData)
         (t0 t : Z),
    persisted r i = Some inc ->
    JS.getTime (dateTime inc) = JS.Int t0 ->
    EditForm.status e = "Closed" ->
    JS.Date_parse (Runtime := browser) (EditForm.closedOn e) = JS.Int t ->
    JS.Date_parse (Runtime := rt) (toISOString t) = JS.Int t ->
    JS.safe (t - t0) ->
    exists dto inc' r',
      EditForm.updateData (browser := browser) toISOString e = Some dto /\
      IncidentsService.update i dto r = (Returned inc', r') /\
      persisted r' i = Some inc' /\
      status inc' = "Closed" /\
      closedOn inc' = Some (JS.mkDate (JS.Int t)) /\
      totalTime inc' = Some (spec_totalTime (elapsed_hours t0 t)).
Proof.
  intros browser rt toISOString r i inc e t0 t Hp H0 Hs Hb Hback Hsafe.
  set (dto := UpdateIncidentDto.mk (Some "Closed") (Some (toISOString t))).
  destruct (update_existing r i inc dto Hp) as (r' & Hrun & Hp').
  destruct (apply_update_closedOn inc dto (toISOString t) t0 t H0 eq_refl
              Hback Hsafe) as [Ht Hc].
  exists dto, (IncidentsService.apply_update inc dto), r'.
  split; [now apply updateData_closed|].
  repeat split; try assumption.
  now rewrite apply_update_status.
Qed.

Lemma editForm_close_sets_total_time_witness :
  exists dto inc' r',
    EditForm.updateData (browser := UtcHost.runtime) UtcText.toISOString
      (EditForm.mkEditData "Closed" "2024-01-02T05:00") = Some dto /\
    IncidentsService.update (rt := UtcHost.runtime) 1 dto store_2024
      = (Returned inc', r') /\
    persisted r' 1 = Some inc' /\
    status inc' = "Closed" /\
    closedOn inc' = Some (JS.mkDate (JS.Int 1704171600000)) /\
    totalTime inc' = Some "1 days".
Proof.
  exact (editForm_close_sets_total_time UtcHost.runtime UtcHost.runtime
           UtcText.toISOString store_2024 1
           (mkIncident 1 "Asha" "Ravi" (JS.mkDate (JS.Int 1704067200000))
              "Printer on fire" None "Open" None None
              (JS.mkDate (JS.Int 1704067300000)))
           (EditForm.mkEditData "Closed" "2024-01-02T05:00")
           1704067200000 1704171600000
           eq_refl eq_refl eq_refl eq_refl eq_refl eq_refl).
Defined.
